(** * Block removal in [remove_sync_functions.py]

    A shallow embedding of the line-marking script
    [src/remove_sync_functions.py] of letta-obsidian, and of the
    function-removal loop of its sibling [src/remove_filesystem.py].

    The script reads [main.ts] with [readlines()], so the buffer is a list
    of lines, each still carrying its terminator.  For every name of
    [functions_to_remove] it walks once over the *original* lines and clears
    entries of the shared boolean list [keep_lines]; at the end it writes
    back the lines whose entry is still [True].

    Python's [str] is modelled by [string] (a line is the sequence of its
    characters), Python's unbounded [int] by [Z], the list [keep_lines]
    updated by index by stdpp's list insert. *)

From Stdlib Require Import ZArith Ascii String.
From stdpp Require Import base list strings gmap.

Local Open Scope Z_scope.

(** ** Strings as Python uses them here *)

Definition TAB : ascii := "009"%char.
Definition LF : ascii := "010"%char.
Definition tab : string := String TAB EmptyString.
Definition nl : string := String LF EmptyString.

(** [sub in s] for Python strings: [sub] occurs somewhere in [s]. *)
Fixpoint contains (sub s : string) : bool :=
  String.prefix sub s ||
  match s with
  | EmptyString => false
  | String _ s' => contains sub s'
  end.

(** [s.count(c)] for a one-character needle [c]: occurrences cannot
    overlap, so this is the number of positions holding [c]. *)
Fixpoint count (c : ascii) (s : string) : Z :=
  match s with
  | EmptyString => 0
  | String a s' => (if Ascii.eqb a c then 1 else 0) + count c s'
  end.

(** The needle of line 29, [f'\tasync {func_name}(']. *)
Definition opening_signature (func_name : string) : string :=
  tab +:+ "async " +:+ func_name +:+ "(".

(** The needle of line 43, ['\t}']. *)
Definition closing_marker : string := tab +:+ "}".

Definition is_opening (func_name line : string) : bool :=
  contains (opening_signature func_name) line.

Definition has_closing_marker (line : string) : bool :=
  contains closing_marker line.

(** What one line adds to [brace_count] (lines 39 and 40). *)
Definition net_braces (line : string) : Z :=
  count "{"%char line - count "}"%char line.

(** ** The marking loop (lines 22 to 44) *)

(** The variables the loops read and write.  [keep_lines] lives across
    the passes of all names; the other three are reset for each name. *)
Record scan_state : Type := ScanState {
  keep_lines : list bool;
  in_function : bool;
  brace_count : Z;
  func_start : Z
}.

(** [for i, x in enumerate(l)] started at index [i], threading a state. *)
Fixpoint for_enumerate {St A : Type} (body : St → nat → A → St)
    (i : nat) (l : list A) (st : St) : St :=
  match l with
  | [] => st
  | x :: l' => for_enumerate body (S i) l' (body st i x)
  end.

(** Body of the inner loop, lines 27 to 44. *)
Definition loop_body (func_name : string) (st : scan_state) (i : nat)
    (line : string) : scan_state :=
  if is_opening func_name line then
    {| in_function := true;
       func_start := Z.of_nat i;
       brace_count := 0;
       keep_lines := <[i := false]> (keep_lines st) |}
  else if in_function st then
    let keep := <[i := false]> (keep_lines st) in
    let bc := brace_count st + count "{"%char line - count "}"%char line in
    {| keep_lines := keep;
       brace_count := bc;
       in_function :=
         if (bc =? 0) && has_closing_marker line then false else true;
       func_start := func_start st |}
  else st.

(** One pass of the outer loop (lines 22 to 44) for one name. *)
Definition mark_function (lines : list string) (keep : list bool)
    (func_name : string) : list bool :=
  keep_lines
    (for_enumerate (loop_body func_name) 0%nat lines
       {| keep_lines := keep; in_function := false;
          brace_count := 0; func_start := -1 |}).

(** Lines 9 and 22 to 44: [keep_lines] after the passes of all names. *)
Definition mark_all (lines : list string) (identifiers : list string)
    : list bool :=
  foldl (mark_function lines) (replicate (length lines) true) identifiers.

(** Lines 47 to 50: the kept lines, in order.  [keep_lines[i]] is always
    in range ([mark_all_length] below); an index out of range would raise
    in Python and is read as not kept here. *)
Definition write_back (lines : list string) (keep : list bool)
    : list string :=
  for_enumerate
    (λ out i line,
       match keep !! i with
       | Some true => out ++ [line]
       | _ => out
       end) 0%nat lines [].

(** The whole transformation, with the names as a parameter. *)
Definition remove_blocks (lines identifiers : list string) : list string :=
  write_back lines (mark_all lines identifiers).

(** Lines 12 to 20. *)
Definition functions_to_remove : list string :=
  [ "syncVaultToLetta"; "syncCurrentFile"; "onFileChange"; "onFileDelete";
    "openFileInAgent"; "closeFileInAgent"; "closeAllFilesInAgent" ]%string.

(** The script itself, from the lines read to the lines written. *)
Definition remove_sync_functions (lines : list string) : list string :=
  remove_blocks lines functions_to_remove.

(** ** A structural reading of the loop

    The control variables [in_function] and [brace_count] never depend on
    [keep_lines], so their run can be followed on its own, and the pass of
    one name reduces to a list of flags, one per line: was the entry
    cleared? *)

Definition ctl : Type := bool * Z.

(** The state in which every pass starts (lines 23 and 24). *)
Definition ctl_init : ctl := (false, 0).

(** The state right after an opening line (lines 30 to 32). *)
Definition ctl_open : ctl := (true, 0).

Definition next_ctl (func_name : string) (c : ctl) (line : string) : ctl :=
  if is_opening func_name line then ctl_open
  else if c.1 then
    let bc := c.2 + net_braces line in
    (negb ((bc =? 0) && has_closing_marker line), bc)
  else c.

Definition run_ctl (func_name : string) (c : ctl) (lines : list string)
    : ctl :=
  foldl (next_ctl func_name) c lines.

Definition clears (func_name : string) (c : ctl) (line : string) : bool :=
  is_opening func_name line || c.1.

Fixpoint dropped (func_name : string) (c : ctl) (lines : list string)
    : list bool :=
  match lines with
  | [] => []
  | line :: rest =>
      clears func_name c line :: dropped func_name (next_ctl func_name c line) rest
  end.

(** Clearing the entries flagged by [ds]. *)
Definition clear_flagged (keep ds : list bool) : list bool :=
  zip_with (λ k d, k && negb d) keep ds.

(** The lines whose entry is [true]. *)
Fixpoint select (keep : list bool) (lines : list string) : list string :=
  match keep, lines with
  | k :: keep', line :: rest =>
      if k then line :: select keep' rest else select keep' rest
  | _, _ => []
  end.

Definition state_ctl (st : scan_state) : ctl :=
  (in_function st, brace_count st).

(** ** The mask after all passes, entry by entry *)

(** Does the pass of [func_name] clear entry [i]? *)
Definition cleared_by (lines : list string) (i : nat) (func_name : string)
    : bool :=
  default false (dropped func_name ctl_init lines !! i).

(** The indices whose lines are not written back. *)
Definition removed_set (lines identifiers : list string) : gset nat :=
  list_to_set
    (filter (λ i, mark_all lines identifiers !! i = Some false)
       (seq 0 (length lines))).

(** ** Blocks that never end *)

(** The test of line 43, on the count after the line's braces. *)
Definition block_ends (bc : Z) (line : string) : bool :=
  (bc =? 0) && has_closing_marker line.

(** The values [brace_count] takes after each of [lines] while the loop is
    inside a function: an opening line sets it to zero (line 32), any other
    line adds its braces (lines 39 and 40). *)
Fixpoint running_count (func_name : string) (bc : Z) (lines : list string)
    : list Z :=
  match lines with
  | [] => []
  | line :: rest =>
      let bc' := if is_opening func_name line then 0 else bc + net_braces line in
      bc' :: running_count func_name bc' rest
  end.

Definition never_ends (func_name : string) (bc : Z) (rest : list string)
    : Prop :=
  ∀ k line bc', rest !! k = Some line →
    running_count func_name bc rest !! k = Some bc' →
    is_opening func_name line = false →
    block_ends bc' line = false.

(** ** Where a block ends *)

(** Sum of the braces the lines contribute. *)
Definition sum_net (lines : list string) : Z :=
  foldr (λ line acc, net_braces line + acc) 0 lines.

(** Line [j] of [rest] closes a block entered with count [d]: the count
    after it is zero and it contains the closing marker. *)
Definition closes_at (d : Z) (rest : list string) (j : nat) : Prop :=
  ∃ line, rest !! j = Some line
    ∧ d + sum_net (take (S j) rest) = 0
    ∧ has_closing_marker line = true.

(** Index in [rest] of the line at which the loop, inside a function in
    state [c], sets [in_function] to [False]. *)
Fixpoint first_exit (func_name : string) (c : ctl) (rest : list string)
    : option nat :=
  match rest with
  | [] => None
  | line :: rest' =>
      let c' := next_ctl func_name c line in
      if c'.1 then S <$> first_exit func_name c' rest' else Some 0%nat
  end.

(** The block's end line as the script finds it, counted from the line
    after the opening line. *)
Definition block_end (func_name : string) (rest : list string) : option nat :=
  first_exit func_name ctl_open rest.

(** The end line as the specification words it (section 4.1, steps 2
    to 4, without the closing-marker test), to be compared with
    [block_end]: the depth starts at what the opening line contributes,
    every later line adds its opening and subtracts its closing markers,
    and the block ends at the first later line where the depth is zero. *)
Fixpoint spec_depths (depth : Z) (rest : list string) : list Z :=
  match rest with
  | [] => []
  | line :: rest' =>
      (depth + net_braces line) :: spec_depths (depth + net_braces line) rest'
  end.

Definition spec_block_end (opening : string) (rest : list string)
    : option nat :=
  fst <$> list_find (λ d, d = 0) (spec_depths (net_braces opening) rest).

(** ** The substitution loop of [remove_filesystem.py] (lines 28 to 41)

    The sibling script removes the same functions from the whole text with
    [re.sub].  For a name [func] the pattern is

      \n\tasync func\([^)]*\): Promise<[^>]+> \{[\s\S]*?\n\t\}\n

    Line 40 writes the name into the pattern as it is, so the name is
    itself a piece of pattern.  The names of the script (lines 28 to 36)
    are made of letters only; the model takes the names made of letters,
    digits and underscores, which stand for themselves in a pattern, and
    no others ([method_name]).

    Every piece of the pattern can match in one way only: a greedy [[^)]*] followed
    by a literal [)] takes all the characters up to the next [)], the
    greedy [[^>]+] followed by a literal [>] takes the characters, one at
    least, up to the next [>], and the lazy [[\s\S]*?] stops at the first
    occurrence of the text that closes the pattern.  A match at a position
    is therefore a function of the text there. *)

(** The characters that stand for themselves in a pattern and can make
    up a name: letters, digits and the underscore. *)
Definition word_char (a : ascii) : bool :=
  let n := nat_of_ascii a in
  (Nat.leb 48 n && Nat.leb n 57) || (Nat.leb 65 n && Nat.leb n 90)
  || (Nat.leb 97 n && Nat.leb n 122) || Nat.eqb n 95.

Fixpoint plain_name (s : string) : bool :=
  match s with
  | EmptyString => true
  | String a s' => word_char a && plain_name s'
  end.

(** A name the loop of lines 38 to 41 is modelled for. *)
Record method_name : Type := MethodName {
  name_text :> string;
  name_plain : plain_name name_text = true
}.

Fixpoint strip_prefix (p s : string) : option string :=
  match p, s with
  | EmptyString, _ => Some s
  | String a p', String b s' =>
      if Ascii.eqb a b then strip_prefix p' s' else None
  | String _ _, EmptyString => None
  end.

(** What a greedy run of characters other than [c] leaves of [s]. *)
Fixpoint skip_not (c : ascii) (s : string) : string :=
  match s with
  | EmptyString => EmptyString
  | String a s' => if Ascii.eqb a c then s else skip_not c s'
  end.

(** What is left of [s] after the first occurrence of [needle]. *)
Fixpoint after_first (needle s : string) : option string :=
  match strip_prefix needle s with
  | Some r => Some r
  | None =>
      match s with
      | EmptyString => None
      | String _ s' => after_first needle s'
      end
  end.

(** The text [\n\t}\n] that ends the pattern. *)
Definition closing_line : string := nl +:+ tab +:+ "}" +:+ nl.

(** The match of the pattern of line 40 at the head of [s], if there is
    one: what is left of [s] after it. *)
Definition match_at (func : method_name) (s : string) : option string :=
  r1 ← strip_prefix (nl +:+ tab +:+ "async " +:+ func +:+ "(") s;
  r2 ← strip_prefix "): Promise<" (skip_not ")" r1);
  match r2 with
  | EmptyString => None
  | String a _ =>
      if Ascii.eqb a ">" then None
      else r3 ← strip_prefix "> {" (skip_not ">" r2);
           after_first closing_line r3
  end.

(** [re.sub(pattern, '\n', s)]: matches are looked for from left to right
    and do not overlap; [skip] counts the characters of the current match
    still to be passed over. *)
Fixpoint re_sub_from (func : method_name) (skip : nat) (s : string)
    : string :=
  match s with
  | EmptyString => EmptyString
  | String a s' =>
      match skip with
      | S n => re_sub_from func n s'
      | O =>
          match match_at func s with
          | Some r =>
              nl +:+ re_sub_from func
                       (String.length s - String.length r - 1)%nat s'
          | None => String a (re_sub_from func 0 s')
          end
      end
  end.

Definition re_sub (func : method_name) (content : string) : string :=
  re_sub_from func 0 content.

(** Lines 38 to 41 for a list of names. *)
Definition remove_functions (content : string)
    (functions : list method_name) : string :=
  foldl (λ content func, re_sub func content) content functions.

(** Lines 28 to 36: the names the script removes. *)
Definition fs_functions_to_remove : list method_name :=
  [ MethodName "syncVaultToLetta" eq_refl;
    MethodName "syncCurrentFile" eq_refl;
    MethodName "onFileChange" eq_refl;
    MethodName "onFileDelete" eq_refl;
    MethodName "openFileInAgent" eq_refl;
    MethodName "closeFileInAgent" eq_refl;
    MethodName "closeAllFilesInAgent" eq_refl ].

(** The text of a buffer, as [read()] returns it. *)
Definition text_of (lines : list string) : string :=
  foldr String.append EmptyString lines.

(** ** Example buffers *)

(** A source line: [depth] tabs, the text, the terminator. *)
Fixpoint tabs (depth : nat) : string :=
  match depth with
  | O => EmptyString
  | S d => tab +:+ tabs d
  end.

Definition src_line (depth : nat) (text : string) : string :=
  tabs depth +:+ text +:+ nl.

Definition nested_example : list string :=
  [ src_line 1 "async a() {";
    src_line 2 "doThing();";
    src_line 1 "}";
    src_line 1 "async b() {";
    src_line 2 "if (x) {";
    src_line 3 "y();";
    src_line 2 "}";
    src_line 1 "}" ].


(** The example of the specification, section 8, as it is printed. *)
Definition spec_example : list string :=
  [ "function a() {" +:+ nl;
    "  doThing();" +:+ nl;
    "}" +:+ nl;
    "function b() {" +:+ nl;
    "  if (x) {" +:+ nl;
    "    y();" +:+ nl;
    "  }" +:+ nl;
    "}" +:+ nl ].

(** A method of [functions_to_remove] with a nested conditional, and the
    method after it. *)
Definition sync_example : list string :=
  [ src_line 1 "async syncCurrentFile(file: TFile): Promise<void> {";
    src_line 2 "if (!file) {";
    src_line 3 "return;";
    src_line 2 "}";
    src_line 2 "await this.upload(file);";
    src_line 1 "}";
    src_line 1 "onunload() {";
    src_line 1 "}" ].

(** Two methods, the second named with the first one's name as a prefix. *)
Definition prefix_example : list string :=
  [ src_line 1 "async sync() {";
    src_line 2 "push();";
    src_line 1 "}";
    src_line 1 "async syncAll() {";
    src_line 2 "for (const f of files) {";
    src_line 3 "this.push(f);";
    src_line 2 "}";
    src_line 1 "}" ].

(** A method whose body is cut off before its closing brace. *)
Definition broken_example : list string :=
  [ src_line 1 "before();";
    src_line 1 "async broken() {";
    src_line 2 "if (x) {";
    src_line 3 "y();" ].

(** A method with its opening brace on a line of its own and its closing
    brace at the end of the last statement, followed by another one. *)
Definition guard_opening : string :=
  src_line 1 "async c(x: number): Promise<void>".

Definition guard_rest : list string :=
  [ src_line 1 "{";
    src_line 2 "go(x); }";
    src_line 1 "other() {";
    src_line 1 "}";
    src_line 1 "last() {}" ].

Definition typed_example : list string :=
  [ "export default class P {" +:+ nl;
    src_line 1 "async a(): Promise<void> {";
    src_line 2 "doThing();";
    src_line 1 "}";
    nl;
    src_line 1 "async b(x: number): Promise<void> {";
    src_line 2 "if (x) {";
    src_line 3 "y();";
    src_line 2 "}";
    src_line 1 "}";
    "}" +:+ nl ].

(** A method whose signature runs over several lines, so that its
    opening line holds no brace, between a statement and another method. *)
Definition multiline_example : list string :=
  [ src_line 1 "keep();";
    src_line 1 "async syncCurrentFile(";
    src_line 2 "file: TFile,";
    src_line 1 "): Promise<void> {";
    src_line 2 "if (!file) {";
    src_line 3 "return;";
    src_line 2 "}";
    src_line 1 "}";
    src_line 1 "onunload() {";
    src_line 1 "}" ].

(** ** More of [remove_filesystem.py] *)

(** The text with which the pattern of line 40 opens for [func]. *)
Definition method_signature (func : string) : string :=
  nl +:+ tab +:+ "async " +:+ func +:+ "(".

(** [re.sub(pattern, '', s)] for a pattern that stands for the fixed text
    [needle] (lines 9, 10, 13, 14, 20 and 45 to 47): the occurrences are
    found from left to right, do not overlap, and are dropped; [skip]
    counts the characters of the current occurrence still to be passed
    over. *)
Fixpoint delete_from (needle : string) (skip : nat) (s : string) : string :=
  match s with
  | EmptyString => EmptyString
  | String a s' =>
      match skip with
      | S n => delete_from needle n s'
      | O =>
          if String.prefix needle s
          then delete_from needle (String.length needle - 1)%nat s'
          else String a (delete_from needle 0 s')
      end
  end.

Definition re_sub_delete (needle content : string) : string :=
  delete_from needle 0 content.

Definition dquote : string := String "034"%char EmptyString.

(** The texts of the patterns of lines 9, 10, 13 and 14. *)
Definition source_name_field : string :=
  tab +:+ "sourceName: string;" +:+ nl.

Definition source_name_default : string :=
  tab +:+ "sourceName: " +:+ dquote +:+ "obsidian-vault-files" +:+ dquote
  +:+ "," +:+ nl.

Definition source_field : string :=
  tab +:+ "source: LettaSource | null = null;" +:+ nl.

Definition syncing_files_field : string :=
  tab +:+ "private syncingFiles: Set<string> = new Set();" +:+ nl.

(** Lines 9 to 14. *)
Definition remove_source_declarations (content : string) : string :=
  let content := re_sub_delete source_name_field content in
  let content := re_sub_delete source_name_default content in
  let content := re_sub_delete source_field content in
  re_sub_delete syncing_files_field content.

(** The texts of the patterns of lines 45 to 47. *)
Definition upload_queue_field : string :=
  tab +:+ "private uploadQueue: Array<() => Promise<void>> = [];" +:+ nl.

Definition uploads_in_last_minute_field : string :=
  tab +:+ "private uploadsInLastMinute: number[] = [];" +:+ nl.

Definition is_processing_queue_field : string :=
  tab +:+ "private isProcessingQueue: boolean = false;" +:+ nl.

(** Lines 45 to 47. *)
Definition remove_queue_fields (content : string) : string :=
  let content := re_sub_delete upload_queue_field content in
  let content := re_sub_delete uploads_in_last_minute_field content in
  re_sub_delete is_processing_queue_field content.

(** ** The loop, structurally *)

Section Loop.
Variable func_name : string.

Lemma loop_body_ctl st i line :
  state_ctl (loop_body func_name st i line)
  = next_ctl func_name (state_ctl st) line.
Proof.
  unfold loop_body, next_ctl, state_ctl, net_braces.
  destruct (is_opening func_name line); [done|].
  destruct st as [keep [] bc start]; simpl; [|done].
  rewrite Z.add_sub_assoc.
  by destruct (_ && _).
Qed.

Lemma loop_body_keep st i line :
  keep_lines (loop_body func_name st i line)
  = if clears func_name (state_ctl st) line
    then <[i := false]> (keep_lines st) else keep_lines st.
Proof.
  unfold loop_body, clears, state_ctl.
  destruct (is_opening func_name line); [done|].
  by destruct st as [keep [] bc start].
Qed.

Lemma for_enumerate_ctl lines i st :
  state_ctl (for_enumerate (loop_body func_name) i lines st)
  = run_ctl func_name (state_ctl st) lines.
Proof.
  revert i st; induction lines as [|line rest IH]; intros i st; [done|].
  simpl. by rewrite IH, loop_body_ctl.
Qed.

(** The loop at index [length done] has finished the entries [done]
    and clears, among the entries [todo] still ahead, those [dropped]
    flags. *)
Lemma for_enumerate_keep lines done todo st :
  keep_lines st = done ++ todo →
  length todo = length lines →
  keep_lines (for_enumerate (loop_body func_name) (length done) lines st)
  = done ++ clear_flagged todo (dropped func_name (state_ctl st) lines).
Proof.
  revert done todo st.
  induction lines as [|line rest IH]; intros done todo st Hk Hlen.
  - destruct todo; [|done]. by simpl.
  - destruct todo as [|t todo]; [done|]. simpl in Hlen.
    simpl for_enumerate.
    replace (S (length done)) with (length (done ++ [t && negb (clears func_name (state_ctl st) line)]))
      by (rewrite length_app; simpl; lia).
    rewrite (IH _ todo).
    + rewrite loop_body_ctl. simpl. by rewrite <- app_assoc.
    + rewrite loop_body_keep, Hk.
      destruct (clears _ _ _); simpl.
      * rewrite andb_false_r.
        rewrite insert_app_r_alt by lia.
        rewrite Nat.sub_diag. simpl. by rewrite <- app_assoc.
      * rewrite andb_true_r. by rewrite <- app_assoc.
    + lia.
Qed.

Lemma mark_function_flags lines keep :
  length keep = length lines →
  mark_function lines keep func_name
  = clear_flagged keep (dropped func_name ctl_init lines).
Proof.
  intros Hlen. unfold mark_function.
  by rewrite (for_enumerate_keep lines [] keep).
Qed.

Lemma dropped_length c lines :
  length (dropped func_name c lines) = length lines.
Proof.
  revert c; induction lines as [|line rest IH]; intros c; simpl; [done|].
  by rewrite IH.
Qed.

Lemma dropped_app c pre rest :
  dropped func_name c (pre ++ rest)
  = dropped func_name c pre
    ++ dropped func_name (run_ctl func_name c pre) rest.
Proof.
  revert c; induction pre as [|line pre IH]; intros c; simpl; [done|].
  by rewrite IH.
Qed.

Lemma run_ctl_app c pre rest :
  run_ctl func_name c (pre ++ rest)
  = run_ctl func_name (run_ctl func_name c pre) rest.
Proof. unfold run_ctl. by rewrite foldl_app. Qed.
End Loop.

Lemma clear_flagged_length keep ds :
  length ds = length keep → length (clear_flagged keep ds) = length keep.
Proof. intros H. unfold clear_flagged. rewrite length_zip_with. lia. Qed.

Lemma mark_function_length lines keep func_name :
  length keep = length lines →
  length (mark_function lines keep func_name) = length lines.
Proof.
  intros H. rewrite mark_function_flags by done.
  rewrite clear_flagged_length; [done|]. by rewrite dropped_length.
Qed.

Lemma foldl_mark_length lines identifiers keep :
  length keep = length lines →
  length (foldl (mark_function lines) keep identifiers) = length lines.
Proof.
  revert keep; induction identifiers as [|f ids IH]; intros keep H; [done|].
  simpl. apply IH. by apply mark_function_length.
Qed.

Lemma mark_all_length lines identifiers :
  length (mark_all lines identifiers) = length lines.
Proof. apply foldl_mark_length. by rewrite length_replicate. Qed.

Lemma write_back_loop lines keep i out :
  for_enumerate
    (λ out i line,
       match keep !! i with
       | Some true => out ++ [line]
       | _ => out
       end) i lines out
  = out ++ select (drop i keep) lines.
Proof.
  revert i out; induction lines as [|line rest IH]; intros i out; simpl.
  - destruct (drop i keep) as [|[] ?]; simpl; by rewrite app_nil_r.
  - rewrite IH.
    destruct (keep !! i) as [k|] eqn:Hk.
    + rewrite (drop_S _ _ _ Hk). destruct k; simpl; [|done].
      by rewrite <- app_assoc.
    + rewrite (drop_ge keep i) by (by apply lookup_ge_None).
      rewrite (drop_ge keep (S i)) by (apply lookup_ge_None in Hk; lia).
      simpl. by rewrite app_nil_r.
Qed.

Lemma write_back_select lines keep : write_back lines keep = select keep lines.
Proof. unfold write_back. by rewrite write_back_loop. Qed.

Lemma clear_flagged_lookup keep ds i :
  length ds = length keep →
  clear_flagged keep ds !! i
  = (λ k, k && negb (default false (ds !! i))) <$> keep !! i.
Proof.
  intros Hlen. unfold clear_flagged. rewrite lookup_zip_with.
  destruct (keep !! i) as [k|] eqn:Hk; simpl; [|done].
  destruct (ds !! i) as [d|] eqn:Hd; simpl; [done|].
  apply lookup_lt_Some in Hk. apply lookup_ge_None in Hd. lia.
Qed.

Lemma foldl_mark_lookup lines identifiers keep i :
  length keep = length lines →
  foldl (mark_function lines) keep identifiers !! i
  = (λ k, k && forallb (λ f, negb (cleared_by lines i f)) identifiers)
    <$> keep !! i.
Proof.
  revert keep; induction identifiers as [|f ids IH]; intros keep Hlen; simpl.
  - destruct (keep !! i); simpl; [|done]. by rewrite andb_true_r.
  - rewrite IH by (by apply mark_function_length).
    rewrite mark_function_flags by done.
    rewrite clear_flagged_lookup by (by rewrite dropped_length).
    destruct (keep !! i); simpl; [|done].
    unfold cleared_by. by rewrite andb_assoc.
Qed.

Lemma mark_all_lookup lines identifiers i :
  (i < length lines)%nat →
  mark_all lines identifiers !! i
  = Some (forallb (λ f, negb (cleared_by lines i f)) identifiers).
Proof.
  intros Hi. unfold mark_all.
  rewrite foldl_mark_lookup by (by rewrite length_replicate).
  by rewrite lookup_replicate_2.
Qed.

Lemma forallb_false {A : Type} (p : A → bool) (l : list A) :
  forallb p l = false ↔ ∃ x, x ∈ l ∧ p x = false.
Proof.
  induction l as [|a l IH]; simpl.
  - split; [done|]. by intros (x & ?%elem_of_nil & _).
  - rewrite andb_false_iff, IH. split.
    + intros [H|(x & ? & ?)]; [exists a | exists x]; split; try done;
        by constructor.
    + intros (x & [->|H]%elem_of_cons & Hp); [by left|]. right. by exists x.
Qed.

Lemma forallb_pointwise {A : Type} (p q : A → bool) (l : list A) :
  (∀ x, p x = q x) → forallb p l = forallb q l.
Proof. intros H. induction l as [|a l IH]; simpl; [done|]. by rewrite H, IH. Qed.

Lemma mark_all_lookup_false lines identifiers i :
  mark_all lines identifiers !! i = Some false
  ↔ (i < length lines)%nat ∧ ∃ f, f ∈ identifiers ∧ cleared_by lines i f = true.
Proof.
  split.
  - intros H. assert (Hi : (i < length lines)%nat).
    { apply lookup_lt_Some in H. by rewrite mark_all_length in H. }
    split; [done|]. rewrite mark_all_lookup in H by done.
    injection H as H. apply forallb_false in H as (f & Hf & Hc).
    exists f. split; [done|]. by apply negb_false_iff.
  - intros (Hi & f & Hf & Hc). rewrite mark_all_lookup by done. f_equal.
    apply forallb_false. exists f. split; [done|]. by rewrite Hc.
Qed.

Lemma mark_all_lookup_true lines identifiers i :
  mark_all lines identifiers !! i = Some true
  ↔ (i < length lines)%nat ∧ ∀ f, f ∈ identifiers → cleared_by lines i f = false.
Proof.
  split.
  - intros H. assert (Hi : (i < length lines)%nat).
    { apply lookup_lt_Some in H. by rewrite mark_all_length in H. }
    split; [done|]. rewrite mark_all_lookup in H by done.
    injection H as H. intros f Hf.
    rewrite forallb_forall in H. apply negb_true_iff, H.
    by apply list_elem_of_In.
  - intros (Hi & H). rewrite mark_all_lookup by done. f_equal.
    apply forallb_forall. intros f Hf. apply negb_true_iff, H.
    by apply list_elem_of_In.
Qed.

Lemma elem_of_removed_set lines identifiers i :
  i ∈ removed_set lines identifiers
  ↔ mark_all lines identifiers !! i = Some false.
Proof.
  unfold removed_set. rewrite elem_of_list_to_set, list_elem_of_filter.
  split; [by intros [? _]|]. intros H; split; [done|].
  apply elem_of_seq. apply lookup_lt_Some in H.
  rewrite mark_all_length in H. lia.
Qed.

Lemma mark_all_removed_set lines identifiers :
  mark_all lines identifiers
  = (λ i, bool_decide (i ∉ removed_set lines identifiers))
    <$> seq 0 (length lines).
Proof.
  apply list_eq. intros i. rewrite list_lookup_fmap.
  destruct (decide (i < length lines)%nat) as [Hi|Hi].
  - rewrite lookup_seq_lt by done. simpl.
    destruct (mark_all lines identifiers !! i) as [[]|] eqn:Hm.
    + f_equal. symmetry. apply bool_decide_eq_true.
      rewrite elem_of_removed_set. congruence.
    + f_equal. symmetry. apply bool_decide_eq_false.
      rewrite elem_of_removed_set. by intros [].
    + apply lookup_ge_None in Hm. rewrite mark_all_length in Hm. lia.
  - rewrite lookup_seq_ge by lia.
    apply lookup_ge_None. rewrite mark_all_length. lia.
Qed.

(** ** What [select] keeps *)

Lemma select_sublist keep lines : select keep lines `sublist_of` lines.
Proof.
  revert lines; induction keep as [|k keep IH]; intros [|line rest]; simpl;
    try apply sublist_nil_l.
  destruct k; [by apply sublist_skip | by apply sublist_cons].
Qed.

Lemma select_all_true lines :
  select (replicate (length lines) true) lines = lines.
Proof. induction lines as [|line rest IH]; simpl; [done|]. by rewrite IH. Qed.

Lemma elem_of_select keep lines line :
  line ∈ select keep lines →
  ∃ i, keep !! i = Some true ∧ lines !! i = Some line.
Proof.
  revert lines; induction keep as [|k keep IH]; intros [|l rest]; simpl;
    try (by intros ?%elem_of_nil).
  destruct k.
  - intros [->|H]%elem_of_cons; [by exists 0%nat|].
    destruct (IH _ H) as (i & ? & ?). by exists (S i).
  - intros H. destruct (IH _ H) as (i & ? & ?). by exists (S i).
Qed.

Lemma select_app keep1 keep2 lines1 lines2 :
  length keep1 = length lines1 →
  select (keep1 ++ keep2) (lines1 ++ lines2)
  = select keep1 lines1 ++ select keep2 lines2.
Proof.
  revert lines1; induction keep1 as [|k keep1 IH]; intros [|l lines1] Hlen;
    simpl in *; try done.
  destruct k; simpl; rewrite IH by lia; done.
Qed.

Lemma select_all_false n lines : select (replicate n false) lines = [].
Proof.
  revert lines; induction n as [|n IH]; intros [|l lines]; simpl; try done.
Qed.

Lemma remove_blocks_select lines identifiers :
  remove_blocks lines identifiers
  = select (mark_all lines identifiers) lines.
Proof. apply write_back_select. Qed.

(** The output is made of the lines whose index is not in [removed_set]. *)
Lemma remove_blocks_removed_set lines identifiers :
  remove_blocks lines identifiers
  = select ((λ i, bool_decide (i ∉ removed_set lines identifiers))
            <$> seq 0 (length lines)) lines.
Proof. by rewrite remove_blocks_select, <- mark_all_removed_set. Qed.

(** ** Opening lines *)

(** An opening line is cleared whatever the state the loop is in. *)
Lemma dropped_opening func_name c lines i line :
  lines !! i = Some line →
  is_opening func_name line = true →
  dropped func_name c lines !! i = Some true.
Proof.
  revert c i; induction lines as [|l rest IH]; intros c i Hi Ho; [done|].
  destruct i as [|i]; simpl in *.
  - injection Hi as ->. unfold clears. by rewrite Ho.
  - by apply IH.
Qed.

(** Without an opening line the pass never leaves its initial state. *)
Lemma dropped_no_opening func_name lines :
  (∀ line, line ∈ lines → is_opening func_name line = false) →
  dropped func_name ctl_init lines = replicate (length lines) false.
Proof.
  induction lines as [|l rest IH]; intros H; simpl; [done|].
  assert (Hl : is_opening func_name l = false) by (apply H; constructor).
  unfold clears, next_ctl. rewrite Hl. simpl. f_equal.
  apply IH. intros line Hin. apply H. by constructor.
Qed.

Lemma clear_flagged_none keep n :
  clear_flagged keep (replicate n false) = take n keep.
Proof.
  revert n; induction keep as [|k keep IH]; intros [|n]; simpl; try done.
  unfold clear_flagged in *. simpl. by rewrite andb_true_r, IH.
Qed.

Lemma mark_function_no_opening lines keep func_name :
  length keep = length lines →
  (∀ line, line ∈ lines → is_opening func_name line = false) →
  mark_function lines keep func_name = keep.
Proof.
  intros Hlen H. rewrite mark_function_flags by done.
  rewrite dropped_no_opening by done.
  rewrite clear_flagged_none. apply take_ge. lia.
Qed.

Lemma mark_all_no_opening lines identifiers :
  (∀ f line, f ∈ identifiers → line ∈ lines → is_opening f line = false) →
  mark_all lines identifiers = replicate (length lines) true.
Proof.
  unfold mark_all. generalize (length_replicate (length lines) true).
  generalize (replicate (length lines) true) as keep.
  induction identifiers as [|f ids IH]; intros keep Hlen H; simpl; [done|].
  rewrite mark_function_no_opening; [|done|].
  - apply IH; [done|]. intros g line Hg. apply H. by constructor.
  - intros line. apply H. constructor.
Qed.

Lemma remove_blocks_no_opening lines identifiers :
  (∀ f line, f ∈ identifiers → line ∈ lines → is_opening f line = false) →
  remove_blocks lines identifiers = lines.
Proof.
  intros H. rewrite remove_blocks_select, mark_all_no_opening by done.
  apply select_all_true.
Qed.

(** No line that is written back is an opening line of a requested name. *)
Lemma remove_blocks_drops_openings lines identifiers f line :
  f ∈ identifiers →
  line ∈ remove_blocks lines identifiers →
  is_opening f line = false.
Proof.
  intros Hf Hin. rewrite remove_blocks_select in Hin.
  apply elem_of_select in Hin as (i & Hk & Hl).
  apply mark_all_lookup_true in Hk as [_ Hk].
  specialize (Hk f Hf). unfold cleared_by in Hk.
  destruct (is_opening f line) eqn:Ho; [|done].
  by rewrite (dropped_opening f ctl_init lines i line) in Hk.
Qed.

(** ** Runs that stay inside a function *)

Lemma next_ctl_inside func_name bc line :
  (is_opening func_name line = false →
   block_ends (bc + net_braces line) line = false) →
  next_ctl func_name (true, bc) line
  = (true, if is_opening func_name line then 0 else bc + net_braces line).
Proof.
  intros H. unfold next_ctl, ctl_open.
  destruct (is_opening func_name line); [done|].
  cbn [fst snd]. fold (block_ends (bc + net_braces line) line).
  by rewrite H.
Qed.

Lemma never_ends_run func_name c rest :
  c.1 = true →
  never_ends func_name c.2 rest →
  dropped func_name c rest = replicate (length rest) true
  ∧ (run_ctl func_name c rest).1 = true.
Proof.
  revert c; induction rest as [|line rest IH]; intros [inf bc] Hin Hne;
    cbn [fst snd] in *; [done|].
  subst inf. cbn [dropped length replicate]. unfold run_ctl. cbn [foldl].
  assert (Hc : clears func_name (true, bc) line = true)
    by apply orb_true_r.
  rewrite Hc, next_ctl_inside.
  - destruct (IH (true, if is_opening func_name line then 0
                        else bc + net_braces line)) as [Hd Hr]; [done| |].
    + intros k l bc' Hl Hrun. by apply (Hne (S k)).
    + by rewrite Hd.
  - intros Ho. apply (Hne 0%nat); [done| |done]. cbn. by rewrite Ho.
Qed.

(** An opening line whose block never ends: the pass clears it and every
    later entry. *)
Lemma dropped_unterminated func_name pre opening rest :
  is_opening func_name opening = true →
  never_ends func_name 0 rest →
  dropped func_name ctl_init (pre ++ opening :: rest)
  = dropped func_name ctl_init pre ++ replicate (S (length rest)) true.
Proof.
  intros Ho Hne. rewrite dropped_app. f_equal. simpl.
  unfold clears at 1, next_ctl at 1. rewrite Ho. simpl. f_equal.
  by apply (never_ends_run func_name ctl_open rest).
Qed.

Lemma cleared_by_unterminated func_name pre opening rest i :
  is_opening func_name opening = true →
  never_ends func_name 0 rest →
  (length pre ≤ i < length (pre ++ opening :: rest))%nat →
  cleared_by (pre ++ opening :: rest) i func_name = true.
Proof.
  intros Ho Hne [Hlo Hhi]. unfold cleared_by.
  rewrite dropped_unterminated by done.
  rewrite lookup_app_r by (rewrite dropped_length; lia).
  rewrite dropped_length, lookup_replicate_2; [done|].
  rewrite length_app in Hhi. simpl in Hhi. lia.
Qed.

(** The passes are causal: what happens to an entry does not depend on
    the lines after it. *)
Lemma cleared_by_prefix func_name pre post i :
  (i < length pre)%nat →
  cleared_by (pre ++ post) i func_name = cleared_by pre i func_name.
Proof.
  intros Hi. unfold cleared_by. rewrite dropped_app.
  by rewrite lookup_app_l by (by rewrite dropped_length).
Qed.

Lemma mark_all_unterminated func_name pre opening rest identifiers :
  func_name ∈ identifiers →
  is_opening func_name opening = true →
  never_ends func_name 0 rest →
  mark_all (pre ++ opening :: rest) identifiers
  = mark_all pre identifiers ++ replicate (S (length rest)) false.
Proof.
  intros Hf Ho Hne. apply list_eq. intros i.
  destruct (decide (i < length pre)%nat) as [Hi|Hi].
  - rewrite lookup_app_l by (by rewrite mark_all_length).
    rewrite !mark_all_lookup by (rewrite ?length_app; lia).
    f_equal. apply forallb_pointwise. intros g. by rewrite cleared_by_prefix.
  - rewrite lookup_app_r by (rewrite mark_all_length; lia).
    rewrite mark_all_length.
    destruct (decide (i < length (pre ++ opening :: rest))%nat) as [Hi'|Hi'].
    + rewrite lookup_replicate_2
        by (rewrite length_app in Hi'; simpl in Hi'; lia).
      apply mark_all_lookup_false. split; [done|]. exists func_name.
      split; [done|]. apply cleared_by_unterminated; [done..|lia].
    + rewrite lookup_ge_None_2 by (rewrite mark_all_length; lia).
      symmetry. apply lookup_ge_None_2. rewrite length_replicate.
      rewrite length_app in Hi'. simpl in Hi'. lia.
Qed.

(** ** Runs up to the closing line *)

Lemma sum_net_app l1 l2 : sum_net (l1 ++ l2) = sum_net l1 + sum_net l2.
Proof.
  unfold sum_net. induction l1 as [|l l1 IH]; simpl; [done|].
  rewrite IH. lia.
Qed.

Lemma run_ctl_inside func_name rest d k :
  (∀ line, line ∈ rest → is_opening func_name line = false) →
  (∀ j, (j < k)%nat → ¬ closes_at d rest j) →
  run_ctl func_name (true, d) (take k rest) = (true, d + sum_net (take k rest)).
Proof.
  revert d k; induction rest as [|line rest IH]; intros d k Hno Hcl.
  - rewrite take_nil. unfold run_ctl, sum_net. simpl. f_equal. lia.
  - destruct k as [|k]; [unfold run_ctl, sum_net; simpl; f_equal; lia|].
    assert (Ho : is_opening func_name line = false)
      by (apply Hno; constructor).
    assert (He : block_ends (d + net_braces line) line = false).
    { destruct (block_ends _ _) eqn:He; [|done].
      exfalso. apply (Hcl 0%nat); [lia|]. exists line.
      unfold block_ends in He. apply andb_true_iff in He as [Hz Hm].
      split; [done|]. split; [|done].
      unfold sum_net. simpl. apply Z.eqb_eq in Hz. lia. }
    simpl take. unfold run_ctl. cbn [foldl].
    rewrite next_ctl_inside by done. rewrite Ho.
    fold (run_ctl func_name (true, d + net_braces line) (take k rest)).
    rewrite IH.
    + f_equal. unfold sum_net. simpl. lia.
    + intros l Hl. apply Hno. by constructor.
    + intros j Hj (l & Hl & Hz & Hm). apply (Hcl (S j)); [lia|].
      exists l. split; [done|]. split; [|done].
      revert Hz. unfold sum_net. simpl. lia.
Qed.

Lemma run_ctl_closing func_name rest d k :
  (∀ line, line ∈ rest → is_opening func_name line = false) →
  (∀ j, (j < k)%nat → ¬ closes_at d rest j) →
  closes_at d rest k →
  run_ctl func_name (true, d) (take (S k) rest) = (false, 0).
Proof.
  intros Hno Hcl (line & Hl & Hz & Hm).
  rewrite (take_S_r _ _ _ Hl) in *. rewrite run_ctl_app, run_ctl_inside by done.
  rewrite sum_net_app in Hz. unfold sum_net at 2 in Hz. simpl in Hz.
  unfold run_ctl. cbn [foldl]. unfold next_ctl.
  rewrite Hno by (by eapply list_elem_of_lookup_2). cbn [fst snd].
  replace (d + sum_net (take k rest) + net_braces line) with 0 by lia.
  by rewrite Hm.
Qed.

Lemma first_exit_run func_name c rest k :
  c.1 = true →
  first_exit func_name c rest = Some k →
  (run_ctl func_name c (take (S k) rest)).1 = false
  ∧ ∀ j, (j ≤ k)%nat → (run_ctl func_name c (take j rest)).1 = true.
Proof.
  revert c k; induction rest as [|line rest IH]; intros c k Hc He; [done|].
  cbn [first_exit] in He.
  destruct (next_ctl func_name c line).1 eqn:Hn.
  - destruct (first_exit func_name _ rest) as [k'|] eqn:Hk; [|done].
    injection He as <-. destruct (IH _ _ Hn Hk) as [H1 H2]. split; [done|].
    intros [|j] Hj; [done|]. apply H2. lia.
  - injection He as <-. split; [done|].
    intros j Hj. by replace j with 0%nat by lia.
Qed.

(** ** Texts the pattern cannot match *)

Lemma append_cons a p r : String a p +:+ r = String a (p +:+ r).
Proof. reflexivity. Qed.

Lemma strip_prefix_Some p s r : strip_prefix p s = Some r → s = p +:+ r.
Proof.
  revert s; induction p as [|a p IH]; intros s H.
  - simpl in H. injection H as ->. reflexivity.
  - destruct s as [|b s]; simpl in H; [done|].
    destruct (Ascii.eqb_spec a b) as [->|]; [|done].
    by rewrite append_cons, <- (IH _ H).
Qed.

Lemma strip_prefix_prefix p s r :
  strip_prefix p s = Some r → String.prefix p s = true.
Proof.
  revert s; induction p as [|a p IH]; intros [|b s] H; simpl in *;
    try done.
  destruct (Ascii.eqb_spec a b) as [->|]; [|done].
  destruct (ascii_dec b b); [by eapply IH|done].
Qed.

Lemma contains_tail needle a s :
  contains needle (String a s) = false → contains needle s = false.
Proof. simpl. by intros [_ ?]%orb_false_iff. Qed.

Lemma contains_app_r needle p r :
  contains needle (p +:+ r) = false → contains needle r = false.
Proof.
  induction p as [|a p IH]; [done|]. rewrite append_cons. intros H.
  apply IH. by apply contains_tail in H.
Qed.

Lemma skip_not_suffix c s : ∃ p, s = p +:+ skip_not c s.
Proof.
  induction s as [|a s [p IH]]; [by exists EmptyString|]. simpl.
  destruct (Ascii.eqb a c); [by exists EmptyString|].
  exists (String a p). by rewrite append_cons, <- IH.
Qed.

Lemma contains_head needle s :
  contains needle s = false → String.prefix needle s = false.
Proof. destruct s; cbn [contains]; by intros [? _]%orb_false_iff. Qed.

Lemma after_first_absent needle s :
  contains needle s = false → after_first needle s = None.
Proof.
  induction s as [|a s IH]; intros H; cbn [after_first];
    destruct (strip_prefix needle _) eqn:Hp; try done.
  - apply strip_prefix_prefix in Hp. apply contains_head in H. congruence.
  - apply strip_prefix_prefix in Hp. apply contains_head in H. congruence.
  - apply IH. by apply contains_tail in H.
Qed.

(** Without the closing text in what follows, the pattern matches
    nowhere. *)
Lemma contains_skip_not needle c s :
  contains needle s = false → contains needle (skip_not c s) = false.
Proof.
  intros H. destruct (skip_not_suffix c s) as [p Hp].
  rewrite Hp in H. by apply contains_app_r in H.
Qed.

Lemma match_at_absent func s :
  contains closing_line s = false → match_at func s = None.
Proof.
  intros H. unfold match_at.
  destruct (strip_prefix _ s) as [r1|] eqn:H1; [|done].
  cbn [mbind option_bind].
  apply strip_prefix_Some in H1. subst s. apply contains_app_r in H.
  apply (contains_skip_not _ ")") in H.
  destruct (strip_prefix _ (skip_not ")" r1)) as [r2|] eqn:H2; [|done].
  cbn [mbind option_bind].
  apply strip_prefix_Some in H2. rewrite H2 in H.
  apply contains_app_r in H.
  destruct r2 as [|a r2']; [done|].
  destruct (Ascii.eqb a ">"); [done|].
  apply (contains_skip_not _ ">") in H.
  destruct (strip_prefix _ (skip_not ">" (String a r2'))) as [r3|] eqn:H3;
    [|done].
  cbn [mbind option_bind].
  apply strip_prefix_Some in H3. rewrite H3 in H.
  apply contains_app_r in H. by apply after_first_absent.
Qed.

Lemma re_sub_absent func content :
  contains closing_line content = false → re_sub func content = content.
Proof.
  unfold re_sub. induction content as [|a s IH]; intros H; [done|].
  cbn [re_sub_from]. rewrite match_at_absent by done.
  f_equal. apply IH. by apply contains_tail in H.
Qed.

(** The sibling script leaves a text without any closing line [\t}] as
    it is, whatever functions open in it. *)
Lemma remove_functions_absent content functions :
  contains closing_line content = false →
  remove_functions content functions = content.
Proof.
  intros H. unfold remove_functions.
  induction functions as [|f fs IH]; [done|].
  simpl. by rewrite re_sub_absent.
Qed.

(** ** Properties of [remove_blocks] *)

(** C5. Idempotence: for every line sequence and every list of names,
    running the removal on its own output changes nothing. *)
Theorem remove_blocks_idempotent (lines identifiers : list string) :
  remove_blocks (remove_blocks lines identifiers) identifiers
  = remove_blocks lines identifiers.
Proof.
  apply remove_blocks_no_opening. intros f line Hf Hin.
  by apply (remove_blocks_drops_openings lines identifiers).
Qed.

(** C6. Every pass reads the original lines, and the set of indices
    removed for two names is the union of the sets removed for each name
    alone (whether or not their blocks are disjoint). *)
Theorem removed_set_union (lines : list string) (a b : string) :
  removed_set lines [a; b] = removed_set lines [a] ∪ removed_set lines [b].
Proof.
  apply set_eq. intros i.
  rewrite elem_of_union, !elem_of_removed_set, !mark_all_lookup_false.
  split.
  - intros (Hi & f & Hf & Hc). apply elem_of_cons in Hf as [->|Hf].
    + left. split; [done|]. exists a. split; [constructor|done].
    + right. split; [done|]. by exists f.
  - intros [(Hi & f & Hf & Hc)|(Hi & f & Hf & Hc)]; split; try done;
      exists f; (split; [|done]); apply list_elem_of_singleton in Hf as ->;
      repeat constructor.
Qed.

(** C7. The output is a subsequence of the input: every output line is an
    input line, unchanged, and the surviving lines keep their order. *)
Theorem remove_blocks_sublist (lines identifiers : list string) :
  remove_blocks lines identifiers `sublist_of` lines.
Proof. rewrite remove_blocks_select. apply select_sublist. Qed.

(** C9. No-op on absence: when no line of the buffer contains the opening
    signature of any requested name, the buffer comes back unchanged. *)
Theorem remove_blocks_absent (lines identifiers : list string) :
  (∀ f line, f ∈ identifiers → line ∈ lines → is_opening f line = false) →
  remove_blocks lines identifiers = lines.
Proof. apply remove_blocks_no_opening. Qed.

(** ** Block boundaries on the code *)

(** C1. On a block with a nested pair of braces the script stops at the
    inner closing brace: asked to remove [b] from [nested_example] it
    clears the opening line of [b] and the three lines of the inner
    conditional, and writes the closing line of [b] back.  The script
    with its own list of names does the same to [syncCurrentFile] in
    [sync_example]: the statement after the conditional and the closing
    line of the method stay. *)
Theorem nested_block_truncated :
  mark_all nested_example ["b"%string]
  = [true; true; true; false; false; false; false; true]
  ∧ remove_blocks nested_example ["b"%string]
    = [ src_line 1 "async a() {"; src_line 2 "doThing();"; src_line 1 "}";
        src_line 1 "}" ]
  ∧ remove_sync_functions sync_example
    = [ src_line 2 "await this.upload(file);"; src_line 1 "}";
        src_line 1 "onunload() {"; src_line 1 "}" ].
Proof. repeat split; reflexivity. Qed.

(** C2. The opening signature of [sync] does not occur in the opening line
    of [syncAll], and still removing [sync] alone from [prefix_example]
    clears four lines of [syncAll]: the pass for [sync] runs past the
    closing line of [sync] and stops inside [syncAll]. *)
Theorem prefix_block_overrun :
  is_opening "sync" (src_line 1 "async syncAll() {") = false
  ∧ mark_all prefix_example ["sync"%string]
    = [false; false; false; false; false; false; false; true]
  ∧ remove_blocks prefix_example ["sync"%string] = [ src_line 1 "}" ].
Proof. repeat split; reflexivity. Qed.

(** C3, as stated, fails on [broken_example]: the depth after the opening
    line of [broken] never returns to zero, and the lines of [broken] are
    removed, not kept. *)
Lemma broken_block_not_kept :
  is_opening "broken" (src_line 1 "async broken() {") = true
  ∧ Forall (λ d, d ≠ 0)
      (spec_depths (net_braces (src_line 1 "async broken() {"))
         (drop 2 broken_example))
  ∧ remove_blocks broken_example ["broken"%string] = [ src_line 1 "before();" ]
  ∧ remove_blocks broken_example ["broken"%string] ≠ broken_example.
Proof.
  split; [reflexivity|]. split; [by repeat constructor|].
  split; [reflexivity|]. discriminate.
Qed.

(** C3, amended. Take a buffer with an opening line of a requested name
    whose nesting depth, counted from what the opening line itself
    contributes, never returns to zero before the end of the buffer, and
    in which no later line contains a tab followed by a closing brace,
    the only lines at which the script can end a block.  The call returns
    a line sequence and nothing else, and the removal is not skipped: the
    opening line and all lines after it are dropped, so the result is
    that of the buffer cut just before the opening line. *)
Theorem unterminated_block_dropped
    (pre : list string) (opening : string) (rest : list string)
    (identifiers : list string) (func_name : string) :
  func_name ∈ identifiers →
  is_opening func_name opening = true →
  Forall (λ d, d ≠ 0) (spec_depths (net_braces opening) rest) →
  Forall (λ line, has_closing_marker line = false) rest →
  remove_blocks (pre ++ opening :: rest) identifiers
  = remove_blocks pre identifiers.
Proof.
  intros Hf Ho _ Hmarker.
  assert (Hne : never_ends func_name 0 rest).
  { intros k line bc Hl _ _. rewrite Forall_lookup in Hmarker.
    unfold block_ends. rewrite (Hmarker k line Hl). apply andb_false_r. }
  rewrite !remove_blocks_select.
  rewrite (mark_all_unterminated func_name) by done.
  rewrite select_app by apply mark_all_length.
  rewrite select_all_false. apply app_nil_r.
Qed.

Lemma unterminated_block_dropped_witness :
  remove_blocks broken_example ["broken"%string]
  = remove_blocks [ src_line 1 "before();" ] ["broken"%string].
Proof.
  apply (unterminated_block_dropped [ src_line 1 "before();" ]
           (src_line 1 "async broken() {")
           [ src_line 2 "if (x) {"; src_line 3 "y();" ]
           ["broken"%string] "broken").
  - constructor.
  - reflexivity.
  - repeat constructor; discriminate.
  - repeat constructor.
Defined.

(** C4, as stated, fails on the method of [guard_opening]: its opening
    line has no brace, the depth is zero again after the second line of
    [guard_rest], which holds no tab followed by a closing brace, and the
    script goes on to the fourth line. *)
Lemma guard_block_end_differs :
  net_braces guard_opening = 0
  ∧ spec_block_end guard_opening guard_rest = Some 1%nat
  ∧ block_end "c" guard_rest = Some 3%nat
  ∧ mark_all (guard_opening :: guard_rest) ["c"%string]
    = [false; false; false; false; false; true].
Proof. repeat split; reflexivity. Qed.

(** C4, amended. While the loop is inside a function, reads no further
    opening line of the name, and no line so far has closed the block,
    [brace_count] is its value on entry plus the opening braces minus the
    closing braces of every line read since; the block ends at the first
    line after which this count is zero and which contains a tab followed
    by a closing brace: there, and not before, [in_function] becomes
    [False]. *)
Theorem block_end_first_closing_line
    (func_name : string) (st : scan_state) (i : nat)
    (rest : list string) (k : nat) :
  in_function st = true →
  (∀ line, line ∈ rest → is_opening func_name line = false) →
  (∀ j, (j < k)%nat → ¬ closes_at (brace_count st) rest j) →
  state_ctl (for_enumerate (loop_body func_name) i (take k rest) st)
  = (true, brace_count st + sum_net (take k rest))
  ∧ (closes_at (brace_count st) rest k →
     in_function (for_enumerate (loop_body func_name) i (take (S k) rest) st)
     = false).
Proof.
  intros Hin Hno Hcl. rewrite for_enumerate_ctl.
  unfold state_ctl at 1. rewrite Hin. split.
  - by apply run_ctl_inside.
  - intros Hk.
    change (in_function ?s) with (state_ctl s).1.
    rewrite for_enumerate_ctl. unfold state_ctl. rewrite Hin.
    by rewrite run_ctl_closing.
Qed.

Lemma block_end_first_closing_line_witness :
  state_ctl
    (for_enumerate (loop_body "b") 4 (take 2 (drop 4 nested_example))
       {| keep_lines := replicate 8 true; in_function := true;
          brace_count := 0; func_start := 3 |})
  = (true, 1)
  ∧ in_function
      (for_enumerate (loop_body "b") 4 (take 3 (drop 4 nested_example))
         {| keep_lines := replicate 8 true; in_function := true;
            brace_count := 0; func_start := 3 |})
    = false.
Proof.
  destruct (block_end_first_closing_line "b"
              {| keep_lines := replicate 8 true; in_function := true;
                 brace_count := 0; func_start := 3 |}
              4 (drop 4 nested_example) 2) as [Hcount Hend].
  - reflexivity.
  - intros line Hl. simpl in Hl.
    repeat (apply elem_of_cons in Hl as [->|Hl]; [reflexivity|]).
    by apply elem_of_nil in Hl.
  - intros j Hj (line & Hl & Hz & _).
    destruct j as [|[|j]]; [discriminate Hz|discriminate Hz|lia].
  - split; [exact Hcount|]. apply Hend.
    exists (src_line 2 "}"). repeat split; reflexivity.
Defined.

(** C8. On the example of the specification written the way the script
    reads methods ([nested_example]: [a] on lines 1 to 3, [b] on lines 4
    to 8 with a nested conditional) removing [b] returns lines 1 to 3 and
    the closing line of [b], and removing [a] and [b] leaves that closing
    line: the pass for [b] stops at the closing brace of the conditional,
    and the pass for [a] runs past the end of [a] and stops there too. *)
Theorem nested_example_closing_line_left :
  remove_blocks nested_example ["b"%string]
  = take 3 nested_example ++ [ src_line 1 "}" ]
  ∧ mark_all nested_example ["a"%string]
    = [false; false; false; false; false; false; false; true]
  ∧ remove_blocks nested_example ["a"%string; "b"%string]
    = [ src_line 1 "}" ].
Proof. repeat split; reflexivity. Qed.

(** C10. Once an opening line of a requested name is read and no later
    line passes the test of line 43 (count zero and a tab followed by a
    closing brace in the line), every entry from the opening line to the
    end of the buffer is cleared, and the output, a plain list of lines
    with nothing reported beside it, is drawn from the lines before the
    opening line only. *)
Theorem unterminated_block_runs_to_end
    (pre : list string) (opening : string) (rest : list string)
    (identifiers : list string) (func_name : string) :
  func_name ∈ identifiers →
  is_opening func_name opening = true →
  never_ends func_name 0 rest →
  (∀ i, (length pre ≤ i < length (pre ++ opening :: rest))%nat →
        i ∈ removed_set (pre ++ opening :: rest) identifiers)
  ∧ remove_blocks (pre ++ opening :: rest) identifiers `sublist_of` pre.
Proof.
  intros Hf Ho Hne. split.
  - intros i Hi. apply elem_of_removed_set, mark_all_lookup_false.
    split; [lia|]. exists func_name. split; [done|].
    by apply cleared_by_unterminated.
  - rewrite remove_blocks_select.
    rewrite (mark_all_unterminated func_name) by done.
    rewrite select_app by apply mark_all_length.
    rewrite select_all_false, app_nil_r. apply select_sublist.
Qed.

Lemma unterminated_block_runs_to_end_witness :
  (∀ i, (1 ≤ i < 5)%nat →
        i ∈ removed_set
              ([ src_line 1 "keep();" ]
               ++ src_line 1 "async syncCurrentFile(file: TFile) {"
               :: [ src_line 2 "if (!file) { return; }";
                    src_line 2 "await this.upload(file);";
                    src_line 0 "}" ])
              functions_to_remove)
  ∧ remove_blocks
      ([ src_line 1 "keep();" ]
       ++ src_line 1 "async syncCurrentFile(file: TFile) {"
       :: [ src_line 2 "if (!file) { return; }";
            src_line 2 "await this.upload(file);";
            src_line 0 "}" ])
      functions_to_remove
    `sublist_of` [ src_line 1 "keep();" ].
Proof.
  apply (unterminated_block_runs_to_end [ src_line 1 "keep();" ]
           (src_line 1 "async syncCurrentFile(file: TFile) {")
           [ src_line 2 "if (!file) { return; }";
             src_line 2 "await this.upload(file);";
             src_line 0 "}" ]
           functions_to_remove "syncCurrentFile").
  - right. left.
  - reflexivity.
  - intros k line bc Hl Hbc _.
    destruct k as [|[|[|k]]]; simpl in Hl, Hbc; try discriminate;
      injection Hl as <-; injection Hbc as <-; reflexivity.
Defined.

Lemma remove_blocks_absent_witness :
  remove_blocks nested_example ["doesNotExist"%string] = nested_example.
Proof.
  apply remove_blocks_absent.
  intros f line Hf Hl. apply list_elem_of_singleton in Hf as ->.
  unfold nested_example in Hl.
  repeat (apply elem_of_cons in Hl as [->|Hl]; [reflexivity|]).
  by apply elem_of_nil in Hl.
Defined.

(** ** The two scripts side by side *)

(** On a method with a nested conditional the sibling script removes the
    whole method, up to and including its own closing line. *)
Lemma re_sub_nested_block :
  re_sub (MethodName "b" eq_refl) (text_of typed_example)
  = text_of [ "export default class P {" +:+ nl;
              src_line 1 "async a(): Promise<void> {";
              src_line 2 "doThing();";
              src_line 1 "}";
              nl;
              "}" +:+ nl ].
Proof. reflexivity. Qed.

(** The line-marking script on the same buffer keeps the closing line of
    the method. *)
Lemma remove_blocks_typed_example :
  remove_blocks typed_example ["b"%string]
  = [ "export default class P {" +:+ nl;
      src_line 1 "async a(): Promise<void> {";
      src_line 2 "doThing();";
      src_line 1 "}";
      nl;
      src_line 1 "}";
      "}" +:+ nl ].
Proof. reflexivity. Qed.

Lemma remove_functions_broken_example :
  remove_functions (text_of broken_example) [MethodName "broken" eq_refl]
  = text_of broken_example.
Proof. by apply remove_functions_absent. Qed.

(** ** Further properties of the line-marking script *)

Lemma forallb_same_elements {A : Type} (p : A → bool) (l1 l2 : list A) :
  (∀ x, x ∈ l1 ↔ x ∈ l2) → forallb p l1 = forallb p l2.
Proof.
  intros H. destruct (forallb p l2) eqn:H2.
  - rewrite forallb_forall in *. intros x Hx. apply H2.
    by apply list_elem_of_In, H, list_elem_of_In.
  - apply forallb_false in H2 as (x & Hx & Hp). apply forallb_false.
    exists x. split; [by apply H|done].
Qed.

Lemma select_weaker_mask keep1 keep2 lines :
  Forall2 (λ k1 k2, k1 = true → k2 = true) keep1 keep2 →
  select keep1 lines `sublist_of` select keep2 lines.
Proof.
  intros H. revert lines.
  induction H as [|k1 k2 keep1 keep2 Hk _ IH]; intros [|line rest]; simpl;
    try done.
  destruct k1.
  - rewrite Hk by done. by apply sublist_skip.
  - destruct k2; [by apply sublist_cons|done].
Qed.

Lemma clear_flagged_all_true ds :
  clear_flagged (replicate (length ds) true) ds = negb <$> ds.
Proof.
  unfold clear_flagged. induction ds as [|d ds IH]; simpl; [done|].
  by rewrite IH.
Qed.

Lemma remove_blocks_one lines func_name :
  remove_blocks lines [func_name]
  = select (negb <$> dropped func_name ctl_init lines) lines.
Proof.
  rewrite remove_blocks_select. unfold mark_all. simpl.
  rewrite mark_function_flags by (by rewrite length_replicate).
  by rewrite <- (dropped_length func_name ctl_init lines),
    clear_flagged_all_true.
Qed.

(** The mask of a buffer starts with the mask of each of its prefixes. *)
Lemma mark_all_app pre post identifiers :
  mark_all (pre ++ post) identifiers
  = mark_all pre identifiers
    ++ drop (length pre) (mark_all (pre ++ post) identifiers).
Proof.
  rewrite <- (take_drop (length pre) (mark_all (pre ++ post) identifiers))
    at 1.
  f_equal. apply list_eq. intros i.
  destruct (decide (i < length pre)%nat) as [Hi|Hi].
  - rewrite lookup_take_lt by done.
    rewrite !mark_all_lookup by (rewrite ?length_app; lia).
    f_equal. apply forallb_pointwise. intros g.
    by rewrite cleared_by_prefix.
  - rewrite lookup_take_ge by lia. symmetry.
    apply lookup_ge_None. rewrite mark_all_length. lia.
Qed.

Lemma filter_agree {A : Type} (P1 P2 : A → Prop)
    `{!∀ x, Decision (P1 x), !∀ x, Decision (P2 x)} (l : list A) :
  (∀ x, x ∈ l → P1 x ↔ P2 x) → filter P1 l = filter P2 l.
Proof.
  induction l as [|a l IH]; intros Hagree; [done|].
  assert (Ha : P1 a ↔ P2 a) by (apply Hagree; constructor).
  rewrite !filter_cons, IH by (intros x Hx; apply Hagree; by constructor).
  destruct (decide (P1 a)), (decide (P2 a)); tauto.
Qed.

Lemma length_select keep lines :
  length keep = length lines →
  (length (select keep lines)
   + length (filter (λ i, keep !! i = Some false) (seq 0 (length lines)))
   = length lines)%nat.
Proof.
  revert keep; induction lines as [|line rest IH] using rev_ind;
    intros keep Hlen.
  - by destruct keep.
  - rewrite length_app in Hlen. simpl in Hlen.
    destruct (decide (keep = [])) as [->|Hne]; [simpl in Hlen; lia|].
    destruct (exists_last Hne) as (keep' & k & ->).
    rewrite length_app in Hlen. simpl in Hlen.
    assert (Hl : length keep' = length rest) by lia.
    rewrite select_app by done.
    rewrite !length_app. simpl length.
    rewrite Nat.add_1_r, seq_S, filter_app. simpl.
    rewrite length_app.
    assert (Hf : filter (λ i, (keep' ++ [k]) !! i = Some false)
                   (seq 0 (length rest))
                 = filter (λ i, keep' !! i = Some false)
                     (seq 0 (length rest))).
    { apply filter_agree. intros i Hi.
      apply elem_of_seq in Hi. by rewrite lookup_app_l by lia. }
    rewrite Hf. specialize (IH keep' Hl).
    rewrite filter_cons, filter_nil.
    rewrite lookup_app_r by lia. rewrite Hl, Nat.sub_diag. simpl.
    destruct k; simpl; lia.
Qed.

Lemma count_nonneg c s : 0 ≤ count c s.
Proof. induction s as [|a s IH]; simpl; [done|]. destruct (Ascii.eqb a c); lia. Qed.

Lemma prefix_cons a p b s :
  String.prefix (String a p) (String b s)
  = if ascii_dec a b then String.prefix p s else false.
Proof. reflexivity. Qed.

Lemma prefix_closing_marker_count s :
  String.prefix closing_marker s = true → 1 ≤ count "}" s.
Proof.
  change closing_marker with (String TAB (String "}" EmptyString)).
  destruct s as [|a [|b s]]; [done| |]; rewrite prefix_cons;
    destruct (ascii_dec TAB a); try done.
  rewrite prefix_cons. destruct (ascii_dec "}" b) as [<-|]; [|done].
  intros _. cbn [count]. pose proof (count_nonneg "}" s).
  rewrite Ascii.eqb_refl. destruct (Ascii.eqb a "}"); lia.
Qed.

Lemma closing_marker_count line :
  has_closing_marker line = true → 1 ≤ count "}" line.
Proof.
  unfold has_closing_marker.
  induction line as [|a s IH]; cbn [contains]; intros H.
  - apply orb_true_iff in H as [H|H]; [|done].
    by apply prefix_closing_marker_count in H.
  - apply orb_true_iff in H as [H|H].
    + by apply prefix_closing_marker_count.
    + specialize (IH H). simpl. destruct (Ascii.eqb a "}"); lia.
Qed.

Lemma prefix_app_l p q s :
  String.prefix (p +:+ q) s = true → String.prefix p s = true.
Proof.
  revert s; induction p as [|a p IH]; intros s H; [by destruct s|].
  rewrite append_cons in H. destruct s as [|b s]; simpl in *; [done|].
  destruct (ascii_dec a b); [by apply IH|done].
Qed.

Lemma contains_app_needle p q s :
  contains p s = false → contains (p +:+ q) s = false.
Proof.
  induction s as [|a s IH]; cbn [contains]; intros H;
    apply orb_false_iff in H as [Hp Hc]; apply orb_false_iff; split;
    try done; try (by apply IH);
    destruct (String.prefix (p +:+ q) _) eqn:Hpq; try done;
    apply prefix_app_l in Hpq; congruence.
Qed.

(** Inside a function, lines without braces leave the state as it is. *)
Lemma run_ctl_flat func_name bc body :
  (∀ line, line ∈ body →
     is_opening func_name line = false
     ∧ count "{" line = 0 ∧ count "}" line = 0) →
  run_ctl func_name (true, bc) body = (true, bc).
Proof.
  induction body as [|line body IH]; intros H; [done|].
  destruct (H line) as (Ho & Hl & Hr); [constructor|].
  unfold run_ctl. cbn [foldl].
  rewrite next_ctl_inside.
  - rewrite Ho. unfold net_braces. rewrite Hl, Hr, Z.sub_0_r, Z.add_0_r.
    apply IH. intros l Hin. apply H. by constructor.
  - intros _. unfold block_ends.
    destruct (has_closing_marker line) eqn:Hm; [|apply andb_false_r].
    apply closing_marker_count in Hm. lia.
Qed.

(** While the state stays inside a function, every entry is cleared. *)
Lemma dropped_inside func_name c body :
  c.1 = true →
  (∀ j, (j < length body)%nat →
        (run_ctl func_name c (take j body)).1 = true) →
  dropped func_name c body = replicate (length body) true.
Proof.
  revert c; induction body as [|line body IH]; intros c Hc H; [done|].
  cbn [dropped length replicate]. f_equal.
  - unfold clears. rewrite Hc. apply orb_true_r.
  - destruct body as [|line' body']; [done|].
    apply IH.
    + apply (H 1%nat). simpl. lia.
    + intros j Hj. apply (H (S j)). simpl in *. lia.
Qed.

(** X1. The names are a set: two lists with the same members, in any
    order and with any repetitions, give the same output. *)
Theorem remove_blocks_same_names (lines ids1 ids2 : list string) :
  (∀ f, f ∈ ids1 ↔ f ∈ ids2) →
  remove_blocks lines ids1 = remove_blocks lines ids2.
Proof.
  intros H. rewrite !remove_blocks_select. f_equal.
  apply list_eq. intros i.
  destruct (decide (i < length lines)%nat) as [Hi|Hi].
  - rewrite !mark_all_lookup by done. f_equal.
    by apply forallb_same_elements.
  - rewrite !lookup_ge_None_2 by (rewrite mark_all_length; lia). done.
Qed.

Lemma remove_blocks_same_names_witness :
  remove_blocks nested_example ["a"; "b"]%string
  = remove_blocks nested_example ["b"; "a"; "b"]%string.
Proof.
  apply remove_blocks_same_names.
  intros f. rewrite !elem_of_cons, !elem_of_nil. tauto.
Defined.

(** X2. Asking for more names never brings a line back: the indices
    removed for a list of names are removed for every larger list, whose
    output is a subsequence of the smaller list's output. *)
Theorem remove_blocks_more_names (lines ids1 ids2 : list string) :
  ids1 ⊆ ids2 →
  removed_set lines ids1 ⊆ removed_set lines ids2
  ∧ remove_blocks lines ids2 `sublist_of` remove_blocks lines ids1.
Proof.
  intros Hsub.
  assert (Hfalse : ∀ i, mark_all lines ids1 !! i = Some false →
                        mark_all lines ids2 !! i = Some false).
  { intros i. rewrite !mark_all_lookup_false.
    intros (Hi & f & Hf & Hc). split; [done|]. exists f.
    split; [by apply Hsub|done]. }
  split.
  - intros i. rewrite !elem_of_removed_set. apply Hfalse.
  - rewrite !remove_blocks_select. apply select_weaker_mask.
    apply Forall2_same_length_lookup_2.
    + by rewrite !mark_all_length.
    + intros i k2 k1 H2 H1 ->. destruct k1; [done|].
      apply Hfalse in H1. congruence.
Qed.

Lemma remove_blocks_more_names_witness :
  removed_set nested_example ["b"%string]
    ⊆ removed_set nested_example ["a"; "b"]%string
  ∧ remove_blocks nested_example ["a"; "b"]%string
    `sublist_of` remove_blocks nested_example ["b"%string].
Proof.
  apply remove_blocks_more_names.
  intros f Hf. apply list_elem_of_singleton in Hf as ->.
  right. left.
Defined.

(** X3. The two empty inputs: an empty buffer gives an empty output for
    any names, and an empty list of names gives the buffer back. *)
Theorem remove_blocks_empty (lines identifiers : list string) :
  remove_blocks [] identifiers = []
  ∧ remove_blocks lines [] = lines.
Proof.
  split.
  - rewrite remove_blocks_select. by destruct (mark_all [] identifiers).
  - rewrite remove_blocks_select. apply select_all_true.
Qed.

(** X4. Every line is either written back or counted in [removed_set]:
    the length of the output plus the number of removed indices is the
    length of the input. *)
Theorem remove_blocks_length (lines identifiers : list string) :
  (length (remove_blocks lines identifiers)
   + size (removed_set lines identifiers) = length lines)%nat.
Proof.
  rewrite remove_blocks_select. unfold removed_set.
  rewrite size_list_to_set by (apply NoDup_filter, NoDup_seq).
  apply length_select, mark_all_length.
Qed.

(** X5. No line of the output contains the opening signature of a
    requested name. *)
Theorem no_opening_line_survives (lines identifiers : list string) :
  Forall (λ line, Forall (λ f, is_opening f line = false) identifiers)
    (remove_blocks lines identifiers).
Proof.
  apply Forall_forall. intros line Hl. apply Forall_forall. intros f Hf.
  by apply (remove_blocks_drops_openings lines identifiers).
Qed.

(** X6. What is written for a line does not depend on the lines after
    it: the output for a prefix of a buffer is a prefix of the output for
    the buffer. *)
Theorem remove_blocks_prefix (pre post identifiers : list string) :
  remove_blocks pre identifiers
  `prefix_of` remove_blocks (pre ++ post) identifiers.
Proof.
  rewrite !remove_blocks_select, mark_all_app.
  rewrite select_app by apply mark_all_length.
  by eexists.
Qed.

(** X7. The lines before the first opening line of any requested name
    are written back as they are, at the head of the output. *)
Theorem leading_lines_kept (pre post identifiers : list string) :
  (∀ f line, f ∈ identifiers → line ∈ pre → is_opening f line = false) →
  pre `prefix_of` remove_blocks (pre ++ post) identifiers.
Proof.
  intros H.
  rewrite <- (remove_blocks_no_opening pre identifiers H) at 1.
  rewrite !remove_blocks_select, mark_all_app.
  rewrite select_app by apply mark_all_length.
  by eexists.
Qed.

Lemma leading_lines_kept_witness :
  take 3 nested_example
  `prefix_of` remove_blocks (take 3 nested_example ++ drop 3 nested_example)
                ["b"%string].
Proof.
  apply leading_lines_kept.
  intros f line Hf Hl. apply list_elem_of_singleton in Hf as ->.
  simpl in Hl.
  repeat (apply elem_of_cons in Hl as [->|Hl]; [reflexivity|]).
  by apply elem_of_nil in Hl.
Defined.

(** X8. A block that the script's own count closes is removed whole and
    leaves no trace: when the count, started at zero after the opening
    line, is zero for the first time with a closing marker at the last
    line of [body], removing the name gives the output for the lines
    before the block followed by the output for the lines after it. *)
Theorem closed_block_removed_whole
    (func_name : string) (pre : list string) (opening : string)
    (body post : list string) (k : nat) :
  is_opening func_name opening = true →
  (∀ line, line ∈ body → is_opening func_name line = false) →
  length body = S k →
  (∀ j, (j < k)%nat → ¬ closes_at 0 body j) →
  closes_at 0 body k →
  remove_blocks (pre ++ opening :: body ++ post) [func_name]
  = remove_blocks pre [func_name] ++ remove_blocks post [func_name].
Proof.
  intros Ho Hno Hlen Hbefore Hk.
  assert (Hafter : next_ctl func_name
                     (run_ctl func_name ctl_init pre) opening = ctl_open).
  { unfold next_ctl. by rewrite Ho. }
  assert (Hbody : dropped func_name ctl_open body
                  = replicate (length body) true).
  { apply dropped_inside; [done|]. intros j Hj.
    unfold ctl_open. rewrite run_ctl_inside; [done|done|].
    intros i Hi. apply Hbefore. lia. }
  assert (Hend : run_ctl func_name ctl_open body = ctl_init).
  { rewrite <- (take_ge body (S k)) by lia.
    by apply run_ctl_closing. }
  rewrite !remove_blocks_one.
  rewrite dropped_app. cbn [dropped]. rewrite Hafter.
  rewrite dropped_app, Hbody, Hend.
  unfold clears at 1. rewrite Ho. cbn [orb].
  rewrite fmap_app, fmap_cons, fmap_app.
  rewrite select_app by (by rewrite length_fmap, dropped_length).
  f_equal.
  change (opening :: body ++ post) with ((opening :: body) ++ post).
  change (negb true :: (negb <$> replicate (length body) true)
                       ++ (negb <$> dropped func_name ctl_init post))
    with ((false :: (negb <$> replicate (length body) true))
          ++ (negb <$> dropped func_name ctl_init post)).
  rewrite select_app
    by (simpl; by rewrite length_fmap, length_replicate).
  rewrite fmap_replicate.
  change (false :: replicate (length body) (negb true))
    with (replicate (S (length body)) false).
  by rewrite select_all_false.
Qed.

Lemma closed_block_removed_whole_witness :
  remove_blocks multiline_example ["syncCurrentFile"%string]
  = remove_blocks [ src_line 1 "keep();" ] ["syncCurrentFile"%string]
    ++ remove_blocks [ src_line 1 "onunload() {"; src_line 1 "}" ]
         ["syncCurrentFile"%string].
Proof.
  apply (closed_block_removed_whole "syncCurrentFile"
           [ src_line 1 "keep();" ]
           (src_line 1 "async syncCurrentFile(")
           [ src_line 2 "file: TFile,";
             src_line 1 "): Promise<void> {";
             src_line 2 "if (!file) {";
             src_line 3 "return;";
             src_line 2 "}";
             src_line 1 "}" ]
           [ src_line 1 "onunload() {"; src_line 1 "}" ] 5).
  - reflexivity.
  - intros line Hl.
    repeat (apply elem_of_cons in Hl as [->|Hl]; [reflexivity|]).
    by apply elem_of_nil in Hl.
  - reflexivity.
  - intros j Hj (line & Hl & Hz & Hm).
    destruct j as [|[|[|[|[|j]]]]]; try lia;
      simpl in Hl; injection Hl as <-;
      first [discriminate Hz | discriminate Hm].
  - exists (src_line 1 "}"). repeat split; reflexivity.
Defined.

(** X9. The script with its own list of names leaves a file alone when
    none of its lines contains a tab followed by [async] and a space. *)
Theorem remove_sync_functions_no_async (lines : list string) :
  (∀ line, line ∈ lines → contains (tab +:+ "async ") line = false) →
  remove_sync_functions lines = lines.
Proof.
  intros H. apply remove_blocks_no_opening. intros f line _ Hl.
  unfold is_opening, opening_signature.
  change (tab +:+ "async " +:+ f +:+ "(")
    with ((tab +:+ "async ") +:+ (f +:+ "(")).
  apply contains_app_needle. by apply H.
Qed.

Lemma remove_sync_functions_no_async_witness :
  remove_sync_functions spec_example = spec_example.
Proof.
  apply remove_sync_functions_no_async.
  intros line Hl. unfold spec_example in Hl.
  repeat (apply elem_of_cons in Hl as [->|Hl]; [reflexivity|]).
  by apply elem_of_nil in Hl.
Defined.

Lemma dropped_lookup_app func_name c l1 x l2 :
  dropped func_name c (l1 ++ x :: l2) !! length l1
  = Some (clears func_name (run_ctl func_name c l1) x).
Proof.
  rewrite dropped_app.
  rewrite lookup_app_r by (by rewrite dropped_length).
  by rewrite dropped_length, Nat.sub_diag.
Qed.

(** X10. The brace of the opening line is not counted, so a method whose
    body holds no brace is not closed by its closing line: the line that
    follows the closing line is removed as well. *)
Theorem line_after_flat_method_removed
    (func_name : string) (identifiers pre : list string) (opening : string)
    (body : list string) (closing next : string) (post : list string) :
  func_name ∈ identifiers →
  is_opening func_name opening = true →
  (∀ line, line ∈ body →
     is_opening func_name line = false
     ∧ count "{" line = 0 ∧ count "}" line = 0) →
  is_opening func_name closing = false →
  net_braces closing ≠ 0 →
  (length pre + length body + 2)%nat
  ∈ removed_set (pre ++ opening :: body ++ closing :: next :: post)
      identifiers.
Proof.
  intros Hf Ho Hbody Hc Hnet.
  apply elem_of_removed_set, mark_all_lookup_false. split.
  { rewrite length_app. simpl. rewrite length_app. simpl. lia. }
  exists func_name. split; [done|]. unfold cleared_by.
  replace (pre ++ opening :: body ++ closing :: next :: post)
    with ((pre ++ opening :: body ++ [closing]) ++ next :: post)
    by (by rewrite <- !app_assoc, <- app_comm_cons, <- app_assoc).
  replace (length pre + length body + 2)%nat
    with (length (pre ++ opening :: body ++ [closing]))
    by (rewrite length_app; simpl; rewrite length_app; simpl; lia).
  rewrite dropped_lookup_app. simpl. f_equal.
  rewrite run_ctl_app.
  change (opening :: body ++ [closing])
    with ([opening] ++ body ++ [closing]).
  rewrite !run_ctl_app.
  assert (Hopen : run_ctl func_name (run_ctl func_name ctl_init pre)
                    [opening] = ctl_open).
  { unfold run_ctl at 1. cbn [foldl]. unfold next_ctl. by rewrite Ho. }
  rewrite Hopen. unfold ctl_open. rewrite run_ctl_flat by done.
  unfold run_ctl. cbn [foldl]. rewrite next_ctl_inside.
  - unfold clears. cbn [fst]. apply orb_true_r.
  - intros _. unfold block_ends.
    destruct (Z.eqb_spec (0 + net_braces closing) 0); [lia|done].
Qed.

Lemma line_after_flat_method_removed_witness :
  3%nat ∈ removed_set prefix_example ["sync"%string].
Proof.
  apply (line_after_flat_method_removed "sync" ["sync"%string] []
           (src_line 1 "async sync() {")
           [ src_line 2 "push();" ]
           (src_line 1 "}")
           (src_line 1 "async syncAll() {")
           [ src_line 2 "for (const f of files) {";
             src_line 3 "this.push(f);";
             src_line 2 "}";
             src_line 1 "}" ]).
  - constructor.
  - reflexivity.
  - intros line Hl. apply list_elem_of_singleton in Hl as ->.
    repeat split; reflexivity.
  - reflexivity.
  - discriminate.
Defined.

(** ** Further properties of the substitutions *)

Lemma str_length_app s1 s2 :
  String.length (s1 +:+ s2) = (String.length s1 + String.length s2)%nat.
Proof.
  induction s1 as [|a s1 IH]; [done|].
  rewrite append_cons. simpl. by rewrite IH.
Qed.

Lemma str_app_assoc s1 s2 s3 : (s1 +:+ s2) +:+ s3 = s1 +:+ s2 +:+ s3.
Proof.
  induction s1 as [|a s1 IH]; [done|]. by rewrite !append_cons, IH.
Qed.

Lemma chars_app s1 s2 :
  list_ascii_of_string (s1 +:+ s2)
  = list_ascii_of_string s1 ++ list_ascii_of_string s2.
Proof.
  induction s1 as [|a s1 IH]; [done|]. rewrite append_cons. simpl.
  by rewrite IH.
Qed.

Lemma strip_prefix_app p r : strip_prefix p (p +:+ r) = Some r.
Proof.
  induction p as [|a p IH]; [done|]. rewrite append_cons. simpl.
  by rewrite Ascii.eqb_refl.
Qed.

Lemma prefix_app p r : String.prefix p (p +:+ r) = true.
Proof. by eapply strip_prefix_prefix, strip_prefix_app. Qed.

(** A prefix that fits in the first part of a text is a prefix of it. *)
Lemma prefix_straddle p x y :
  String.prefix p (x +:+ y) = true →
  (String.length p ≤ String.length x)%nat →
  String.prefix p x = true.
Proof.
  revert x; induction p as [|a p IH]; intros x H Hlen; [by destruct x|].
  destruct x as [|b x]; [simpl in Hlen; lia|].
  rewrite append_cons in H. rewrite prefix_cons in *.
  destruct (ascii_dec a b); [|done]. apply IH; [done|]. simpl in Hlen. lia.
Qed.

(** A text [ninit c] that does not begin inside [pre], where it is
    followed by [ninit], does not begin there when more follows. *)
Lemma prefix_not_early ninit c a w rest :
  String.prefix (ninit +:+ String c EmptyString) (String a w +:+ ninit)
  = false →
  String.prefix (ninit +:+ String c EmptyString)
    (String a w +:+ ninit +:+ String c rest) = false.
Proof.
  intros H. destruct (String.prefix _ (_ +:+ _ +:+ _)) eqn:Hp; [|done].
  rewrite <- str_app_assoc in Hp. apply prefix_straddle in Hp.
  - congruence.
  - rewrite !str_length_app. simpl. lia.
Qed.

Lemma skip_not_app c a r :
  count c a = 0 → skip_not c (a +:+ String c r) = String c r.
Proof.
  induction a as [|x a IH]; intros H.
  - simpl. by rewrite Ascii.eqb_refl.
  - rewrite append_cons. simpl in *. pose proof (count_nonneg c a).
    destruct (Ascii.eqb x c); [lia|]. apply IH. lia.
Qed.

Lemma after_first_here needle s r :
  strip_prefix needle s = Some r → after_first needle s = Some r.
Proof. intros H. destruct s; cbn [after_first]; by rewrite H. Qed.

Lemma after_first_at ninit c pre rest :
  contains (ninit +:+ String c EmptyString) (pre +:+ ninit) = false →
  after_first (ninit +:+ String c EmptyString)
    (pre +:+ ninit +:+ String c rest) = Some rest.
Proof.
  induction pre as [|a pre IH]; intros H.
  - apply after_first_here.
    change (EmptyString +:+ ninit +:+ String c rest)
      with (ninit +:+ String c EmptyString +:+ rest).
    rewrite <- str_app_assoc. apply strip_prefix_app.
  - rewrite append_cons. cbn [after_first].
    destruct (strip_prefix _ _) as [r|] eqn:Hs.
    + apply strip_prefix_prefix in Hs. rewrite <- append_cons in Hs.
      rewrite prefix_not_early in Hs; [done|]. by apply contains_head in H.
    + apply IH. rewrite append_cons in H. by apply contains_tail in H.
Qed.

(** Passing over the characters of a match. *)
Lemma re_sub_from_skip func m post :
  re_sub_from func (String.length m) (m +:+ post) = re_sub_from func 0 post.
Proof. induction m as [|a m IH]; [done|]. rewrite append_cons. by simpl. Qed.

Lemma delete_from_skip needle m post :
  delete_from needle (String.length m) (m +:+ post)
  = delete_from needle 0 post.
Proof. induction m as [|a m IH]; [done|]. rewrite append_cons. by simpl. Qed.

Lemma strip_prefix_cons a p b s :
  strip_prefix (String a p) (String b s)
  = if Ascii.eqb a b then strip_prefix p s else None.
Proof. reflexivity. Qed.

Lemma match_at_head func a s r : match_at func (String a s) = Some r → a = LF.
Proof.
  unfold match_at.
  destruct (strip_prefix _ (String a s)) as [r1|] eqn:H1; [|done].
  intros _. change (nl +:+ tab +:+ "async " +:+ func +:+ "(")
    with (String LF (tab +:+ "async " +:+ func +:+ "(")) in H1.
  rewrite strip_prefix_cons in H1. by destruct (Ascii.eqb_spec LF a).
Qed.

Lemma match_at_no_prefix (func : method_name) s :
  String.prefix (method_signature func) s = false → match_at func s = None.
Proof.
  intros H. unfold match_at.
  destruct (strip_prefix _ s) as [r1|] eqn:H1; [|done].
  apply strip_prefix_prefix in H1. unfold method_signature in H. congruence.
Qed.

Lemma re_sub_from_sublist func skip s :
  list_ascii_of_string (re_sub_from func skip s)
  `sublist_of` list_ascii_of_string s.
Proof.
  revert skip; induction s as [|a s IH]; intros skip; [done|].
  cbn [re_sub_from list_ascii_of_string].
  destruct skip as [|n]; [|by apply sublist_cons].
  destruct (match_at func (String a s)) as [r|] eqn:Hm.
  - apply match_at_head in Hm as ->.
    change (nl +:+ ?x) with (String LF x).
    by apply sublist_skip.
  - by apply sublist_skip.
Qed.

Lemma delete_from_sublist needle skip s :
  list_ascii_of_string (delete_from needle skip s)
  `sublist_of` list_ascii_of_string s.
Proof.
  revert skip; induction s as [|a s IH]; intros skip; [done|].
  cbn [delete_from list_ascii_of_string].
  destruct skip as [|n]; [|by apply sublist_cons].
  destruct (String.prefix needle (String a s));
    [by apply sublist_cons | by apply sublist_skip].
Qed.

Lemma re_sub_no_signature (func : method_name) content :
  contains (method_signature func) content = false →
  re_sub func content = content.
Proof.
  unfold re_sub. induction content as [|a s IH]; intros H; [done|].
  cbn [re_sub_from].
  rewrite match_at_no_prefix by (by apply contains_head).
  f_equal. apply IH. by apply contains_tail in H.
Qed.

Lemma re_sub_delete_absent needle content :
  contains needle content = false → re_sub_delete needle content = content.
Proof.
  unfold re_sub_delete. induction content as [|a s IH]; intros H; [done|].
  cbn [delete_from]. rewrite (contains_head _ _ H).
  f_equal. apply IH. by apply contains_tail in H.
Qed.

Lemma contains_no_char c r s :
  count c s = 0 → contains (String c r) s = false.
Proof.
  induction s as [|a s IH]; intros H; [done|].
  cbn [contains]. simpl in H. pose proof (count_nonneg c s).
  rewrite prefix_cons. destruct (ascii_dec c a) as [->|].
  - rewrite Ascii.eqb_refl in H. lia.
  - simpl. apply IH. destruct (Ascii.eqb a c); lia.
Qed.

Lemma re_sub_from_match func m post :
  m ≠ EmptyString →
  match_at func (m +:+ post) = Some post →
  re_sub_from func 0 (m +:+ post) = nl +:+ re_sub_from func 0 post.
Proof.
  intros Hm H. destruct m as [|a m]; [done|].
  rewrite append_cons in *. cbn [re_sub_from]. rewrite H. f_equal.
  replace (String.length (String a (m +:+ post)) - String.length post - 1)%nat
    with (String.length m)
    by (simpl; rewrite str_length_app; lia).
  apply re_sub_from_skip.
Qed.

Lemma re_sub_from_before (func : method_name) pre rest :
  contains (method_signature func) (pre +:+ nl +:+ tab +:+ "async " +:+ func)
  = false →
  re_sub_from func 0 (pre +:+ method_signature func +:+ rest)
  = pre +:+ re_sub_from func 0 (method_signature func +:+ rest).
Proof.
  change (method_signature func)
    with ((nl +:+ tab +:+ "async " +:+ func) +:+ String "(" EmptyString).
  set (ninit := nl +:+ tab +:+ "async " +:+ func).
  induction pre as [|a pre IH]; intros H; [done|].
  rewrite !append_cons in *. cbn [re_sub_from].
  rewrite match_at_no_prefix.
  - f_equal. apply IH. by apply contains_tail in H.
  - change (method_signature func)
      with (ninit +:+ String "(" EmptyString).
    rewrite <- append_cons, str_app_assoc.
    change (String "(" EmptyString +:+ rest) with (String "(" rest).
    apply prefix_not_early. rewrite append_cons. by apply contains_head in H.
Qed.

Lemma match_at_method (func : method_name) args ty body post :
  count ")" args = 0 →
  ty ≠ EmptyString →
  count ">" ty = 0 →
  contains closing_line (body +:+ nl +:+ tab +:+ "}") = false →
  match_at func
    (method_signature func +:+ args +:+ "): Promise<" +:+ ty +:+ "> {"
     +:+ body +:+ closing_line +:+ post)
  = Some post.
Proof.
  intros Hargs Hty Hgt Hbody. unfold match_at.
  fold (method_signature func). rewrite strip_prefix_app.
  cbn [mbind option_bind].
  change ("): Promise<" +:+ ?x) with (String ")" (": Promise<" +:+ x)).
  rewrite skip_not_app by done.
  change (String ")" (": Promise<" +:+ ?x)) with ("): Promise<" +:+ x).
  rewrite strip_prefix_app. cbn [mbind option_bind].
  destruct ty as [|t ty]; [done|].
  rewrite append_cons.
  assert (Ht : Ascii.eqb t ">" = false).
  { simpl in Hgt. pose proof (count_nonneg ">" ty).
    destruct (Ascii.eqb t ">"); [lia|done]. }
  rewrite Ht. rewrite <- append_cons.
  change ("> {" +:+ ?x) with (String ">" (" {" +:+ x)).
  rewrite skip_not_app by done.
  change (String ">" (" {" +:+ ?x)) with ("> {" +:+ x).
  rewrite strip_prefix_app. cbn [mbind option_bind].
  change closing_line
    with ((nl +:+ tab +:+ "}") +:+ String LF EmptyString).
  rewrite (str_app_assoc (nl +:+ tab +:+ "}")).
  change (String LF EmptyString +:+ post) with (String LF post).
  apply after_first_at. revert Hbody.
  by rewrite <- !str_app_assoc.
Qed.

Lemma delete_from_before ninit c pre post :
  contains (ninit +:+ String c EmptyString) (pre +:+ ninit) = false →
  delete_from (ninit +:+ String c EmptyString) 0
    (pre +:+ ninit +:+ String c post)
  = pre +:+ delete_from (ninit +:+ String c EmptyString) 0
              (ninit +:+ String c post).
Proof.
  induction pre as [|a pre IH]; intros H; [done|].
  rewrite !append_cons in *. cbn [delete_from].
  rewrite <- append_cons, prefix_not_early
    by (rewrite append_cons; by apply contains_head in H).
  f_equal. apply IH. by apply contains_tail in H.
Qed.

Lemma delete_from_here needle post :
  needle ≠ EmptyString →
  delete_from needle 0 (needle +:+ post) = delete_from needle 0 post.
Proof.
  intros Hne. pose proof (prefix_app needle post) as Hp.
  destruct needle as [|a n]; [done|].
  rewrite append_cons in *. cbn [delete_from]. rewrite Hp.
  replace (String.length (String a n) - 1)%nat with (String.length n)
    by (simpl; lia).
  apply delete_from_skip.
Qed.

(** X11. For names made of letters, digits and underscores the
    substitution loop only deletes: the characters of its result are
    characters of the text, in their order (the line feed it writes for a
    match is the one the match begins with). *)
Theorem remove_functions_only_deletes
    (content : string) (functions : list method_name) :
  list_ascii_of_string (remove_functions content functions)
  `sublist_of` list_ascii_of_string content.
Proof.
  unfold remove_functions. revert content.
  induction functions as [|f fs IH]; intros content; [done|].
  simpl. etrans; [apply IH|]. apply re_sub_from_sublist.
Qed.

Lemma remove_functions_unmatched content (functions : list method_name) :
  (∀ f : method_name,
     f ∈ functions → contains (method_signature f) content = false) →
  remove_functions content functions = content.
Proof.
  unfold remove_functions.
  induction functions as [|f fs IH]; intros H; [done|].
  simpl. rewrite re_sub_no_signature by (apply H; constructor).
  apply IH. intros g Hg. apply H. by constructor.
Qed.

(** X12. A name made of letters, digits and underscores whose signature,
    a line feed, a tab, [async], the name and an opening parenthesis,
    occurs nowhere in the text is passed over: when this holds for all
    names the text is unchanged. *)
Theorem remove_functions_no_signature
    (content : string) (functions : list method_name) :
  (∀ f : method_name,
     f ∈ functions → contains (method_signature f) content = false) →
  remove_functions content functions = content.
Proof. apply remove_functions_unmatched. Qed.

Lemma remove_functions_no_signature_witness :
  remove_functions (text_of typed_example) fs_functions_to_remove
  = text_of typed_example.
Proof.
  apply remove_functions_no_signature.
  intros f Hf. unfold fs_functions_to_remove in Hf.
  repeat (apply elem_of_cons in Hf as [->|Hf]; [reflexivity|]).
  by apply elem_of_nil in Hf.
Defined.

(** X13. A text in which no line consists of a tab and a closing brace
    (the text line feed, tab, brace, line feed occurs nowhere) is left
    unchanged for all names made of letters, digits and underscores,
    whatever methods open in it. *)
Theorem remove_functions_no_closing_line
    (content : string) (functions : list method_name) :
  contains closing_line content = false →
  remove_functions content functions = content.
Proof.
  intros H. unfold remove_functions.
  induction functions as [|f fs IH]; [done|].
  simpl. by rewrite re_sub_absent.
Qed.

Lemma remove_functions_no_closing_line_witness :
  remove_functions
    (text_of [ nl; src_line 1 "async onFileChange(f: TFile): Promise<void> {";
               src_line 2 "if (f) {"; src_line 3 "go(f);"; src_line 2 "}" ])
    fs_functions_to_remove
  = text_of [ nl; src_line 1 "async onFileChange(f: TFile): Promise<void> {";
              src_line 2 "if (f) {"; src_line 3 "go(f);"; src_line 2 "}" ].
Proof. apply remove_functions_no_closing_line. reflexivity. Defined.

(** X14. The first method of a name made of letters, digits and
    underscores is removed up to the first line that consists of a tab
    and a closing brace, and a single line feed is left
    in its place: when the signature does not begin before the method,
    the parameters hold no closing parenthesis, the result type of the
    promise is not empty and holds no [>], and no such line begins inside
    the body, the text before the method stays and the substitution goes
    on in the text after that line. *)
Theorem re_sub_removes_method
    (func : method_name) (pre args ty body post : string) :
  contains (method_signature func) (pre +:+ nl +:+ tab +:+ "async " +:+ func)
  = false →
  count ")" args = 0 →
  ty ≠ EmptyString →
  count ">" ty = 0 →
  contains closing_line (body +:+ nl +:+ tab +:+ "}") = false →
  re_sub func
    (pre +:+ method_signature func +:+ args +:+ "): Promise<" +:+ ty
     +:+ "> {" +:+ body +:+ closing_line +:+ post)
  = pre +:+ nl +:+ re_sub func post.
Proof.
  intros Hpre Hargs Hty Hgt Hbody. unfold re_sub.
  rewrite re_sub_from_before by done. f_equal.
  pose proof (match_at_method func args ty body post Hargs Hty Hgt Hbody)
    as Hm.
  rewrite <- !str_app_assoc in *.
  apply re_sub_from_match; [|done].
  intros E. apply (f_equal String.length) in E.
  rewrite !str_length_app in E. unfold closing_line in E.
  rewrite !str_length_app in E. simpl in E. lia.
Qed.

Lemma re_sub_removes_method_witness :
  re_sub (MethodName "b" eq_refl)
    (("class P {" +:+ nl +:+ src_line 1 "a = 1;")
     +:+ method_signature "b" +:+ "x: number" +:+ "): Promise<" +:+ "void"
     +:+ "> {" +:+ (nl +:+ src_line 2 "if (x) {" +:+ src_line 3 "y();"
                    +:+ tab +:+ tab +:+ "}")
     +:+ closing_line +:+ ("}" +:+ nl))
  = ("class P {" +:+ nl +:+ src_line 1 "a = 1;")
    +:+ nl +:+ re_sub (MethodName "b" eq_refl) ("}" +:+ nl).
Proof.
  apply re_sub_removes_method; try reflexivity. discriminate.
Defined.

(** X15. The substitutions of lines 9 to 14 and of lines 45 to 47 only
    delete: the characters of their results are characters of the text,
    in their order. *)
Theorem declarations_only_deleted (content : string) :
  list_ascii_of_string (remove_source_declarations content)
  `sublist_of` list_ascii_of_string content
  ∧ list_ascii_of_string (remove_queue_fields content)
    `sublist_of` list_ascii_of_string content.
Proof.
  unfold remove_source_declarations, remove_queue_fields, re_sub_delete.
  split; repeat (etrans; [apply delete_from_sublist|]); done.
Qed.

(** X16. Every text these substitutions look for holds a tab: a text
    without a tab goes through lines 9 to 14, the loop of lines 38 to 41
    for names made of letters, digits and underscores, and lines 45 to 47
    unchanged. *)
Theorem no_tab_unchanged
    (content : string) (functions : list method_name) :
  count TAB content = 0 →
  remove_source_declarations content = content
  ∧ remove_functions content functions = content
  ∧ remove_queue_fields content = content.
Proof.
  intros H.
  assert (Htab : ∀ r, contains (tab +:+ r) content = false)
    by (intros r; by apply contains_no_char).
  split; [|split].
  - unfold remove_source_declarations.
    by rewrite !(re_sub_delete_absent _ content) by apply Htab.
  - apply remove_functions_unmatched. intros f _.
    unfold method_signature.
    change (nl +:+ tab +:+ "async " +:+ f +:+ "(")
      with (String LF (tab +:+ "async " +:+ f +:+ "(")).
    clear H. induction content as [|a s IH]; [done|].
    cbn [contains]. apply orb_false_iff. split.
    + rewrite prefix_cons. destruct (ascii_dec LF a); [|done].
      apply contains_head. apply (contains_tail _ a), Htab.
    + apply IH. intros r. apply (contains_tail _ a), Htab.
  - unfold remove_queue_fields.
    by rewrite !(re_sub_delete_absent _ content) by apply Htab.
Qed.

Lemma no_tab_unchanged_witness :
  remove_source_declarations ("const sourceName = 1;" +:+ nl)
  = "const sourceName = 1;" +:+ nl
  ∧ remove_functions ("const sourceName = 1;" +:+ nl) fs_functions_to_remove
    = "const sourceName = 1;" +:+ nl
  ∧ remove_queue_fields ("const sourceName = 1;" +:+ nl)
    = "const sourceName = 1;" +:+ nl.
Proof. apply no_tab_unchanged. reflexivity. Defined.

(** X17. A substitution of a fixed text by nothing drops the first
    occurrence of the text and goes on after it: when the text, written
    as [ninit] followed by its last character [c], does not begin before
    that occurrence, what precedes the occurrence is kept as it is. *)
Theorem re_sub_delete_first_occurrence
    (ninit : string) (c : ascii) (pre post : string) :
  contains (ninit +:+ String c EmptyString) (pre +:+ ninit) = false →
  re_sub_delete (ninit +:+ String c EmptyString)
    (pre +:+ (ninit +:+ String c EmptyString) +:+ post)
  = pre +:+ re_sub_delete (ninit +:+ String c EmptyString) post.
Proof.
  intros H. unfold re_sub_delete.
  rewrite str_app_assoc.
  change (String c EmptyString +:+ post) with (String c post).
  rewrite delete_from_before by done. f_equal.
  change (String c post) with (String c EmptyString +:+ post).
  rewrite <- str_app_assoc. apply delete_from_here.
  by destruct ninit.
Qed.

Lemma re_sub_delete_first_occurrence_witness :
  re_sub_delete ((tab +:+ "sourceName: string;") +:+ String LF EmptyString)
    (("interface Settings {" +:+ nl +:+ src_line 1 "agentName: string;")
     +:+ ((tab +:+ "sourceName: string;") +:+ String LF EmptyString)
     +:+ ("}" +:+ nl))
  = ("interface Settings {" +:+ nl +:+ src_line 1 "agentName: string;")
    +:+ re_sub_delete
          ((tab +:+ "sourceName: string;") +:+ String LF EmptyString)
          ("}" +:+ nl).
Proof. apply re_sub_delete_first_occurrence. reflexivity. Defined.
